(** * Credential rotation for OpenEMR on EKS: a shallow embedding

    The development follows [tools/credential-rotation]:
    - [secrets_manager.py]: the slot document, [standby_slot],
      [generate_password];
    - [efs_editor.py]: [parse_sqlconf], [render_sqlconf], [atomic_write];
    - [k8s_refresh.py], [validators.py]: the cluster and database calls;
    - [rotate.py]: [RotationOrchestrator].

    Python text is a Rocq [string] whose characters are the code points
    below 256; dictionaries are [gmap string _]; a method that raises
    returns [inl] of the exception, together with the state reached. *)

From Stdlib Require Import ZArith String Ascii List Lia.
From stdpp Require Import base option list gmap strings pretty.

Local Open Scope string_scope.
Local Open Scope list_scope.
Local Open Scope Z_scope.

(** ** Values and exceptions *)

(** A field of a slot or admin record, as [json.loads] gives it: text or
    a whole number. *)
Inductive sval :=
| SStr (s : string)
| SInt (n : Z).

(** A value of the secret document: a field, or a nested flat record. *)
Inductive jval :=
| JVal (v : sval)
| JDict (d : gmap string sval).

#[global] Instance sval_eq_dec : EqDecision sval.
Proof. solve_decision. Defined.

#[global] Instance jval_eq_dec : EqDecision jval.
Proof. solve_decision. Defined.

(** Python's [str(v)]. *)
Definition py_str (v : sval) : string :=
  match v with
  | SStr s => s
  | SInt n => pretty n
  end.

(** [str(d.get(k))]: an absent key gives [None], printed as such. *)
Definition py_str_get (d : gmap string sval) (k : string) : string :=
  match d !! k with
  | Some v => py_str v
  | None => "None"
  end.

(** The exceptions the modelled code raises or lets through.  The number
    carried by an error of an external service is the index of the call
    that raised it, which tells two errors of the same class apart. *)
Inductive exn :=
| ValueError (msg : string)
| KeyError (key : string)
| IndexError
| TypeError
| AttributeError
| RuntimeError (msg : string)
| FileNotFoundError
| OSError (call : nat)
| ClientError (call : nat)
| ResourceNotFound (secret_id : string)
| OperationalError (call : nat)
| ProgrammingError
| ValidationError
| ApiException (call : nat)
| ReError.

#[global] Instance exn_eq_dec : EqDecision exn.
Proof. solve_decision. Defined.

(** ** secrets_manager.py: the pure part *)

(** [SecretsManagerSlots.standby_slot]. *)
Definition standby_slot (active_slot : string) : exn + string :=
  if decide (active_slot = "A") then inr "B"
  else if decide (active_slot = "B") then inr "A"
  else inl (ValueError ("Invalid active slot: " +:+ active_slot)).

Definition ascii_lowercase : string := "abcdefghijklmnopqrstuvwxyz".
Definition ascii_uppercase : string := "ABCDEFGHIJKLMNOPQRSTUVWXYZ".
Definition ascii_letters : string := ascii_lowercase +:+ ascii_uppercase.
Definition digits : string := "0123456789".

(** [alphabet = string.ascii_letters + string.digits]. *)
Definition alphabet : string := ascii_letters +:+ digits.

(** ** A fragment of Python's [re]

    [efs_editor.py] uses patterns built from literals, one-character
    classes and greedy [*] and [+] over a class, split into groups and
    anchored by [^] under [re.MULTILINE].  The matcher below is a
    backtracking one: a greedy repetition first takes as much as it can
    and gives characters back when the rest of the pattern fails. *)

Inductive item :=
| Lit (c : ascii)
| Cls (p : ascii -> bool)
| Star (p : ascii -> bool)
| Plus (p : ascii -> bool).

Section Matcher.
Context {R : Type}.

Fixpoint m_star (p : ascii -> bool) (s : list ascii)
    (k : list ascii -> list ascii -> option R) : option R :=
  match s with
  | c :: s' =>
      if p c then
        match m_star p s' (fun t r => k (c :: t) r) with
        | Some x => Some x
        | None => k [] s
        end
      else k [] s
  | [] => k [] s
  end.

Definition m_item (it : item) (s : list ascii)
    (k : list ascii -> list ascii -> option R) : option R :=
  match it with
  | Lit c =>
      match s with
      | x :: s' => if decide (x = c) then k [x] s' else None
      | [] => None
      end
  | Cls p =>
      match s with
      | x :: s' => if p x then k [x] s' else None
      | [] => None
      end
  | Star p => m_star p s k
  | Plus p =>
      match s with
      | x :: s' => if p x then m_star p s' (fun t r => k (x :: t) r) else None
      | [] => None
      end
  end.

Fixpoint m_items (its : list item) (s : list ascii)
    (k : list ascii -> list ascii -> option R) : option R :=
  match its with
  | [] => k [] s
  | it :: its' =>
      m_item it s (fun t r => m_items its' r (fun t' r' => k (t ++ t') r'))
  end.

Fixpoint m_groups (gs : list (list item)) (s : list ascii)
    (k : list (list ascii) -> list ascii -> option R) : option R :=
  match gs with
  | [] => k [] s
  | g :: gs' =>
      m_items g s (fun t r => m_groups gs' r (fun ts r' => k (t :: ts) r'))
  end.
End Matcher.

(** A pattern: whether it starts with [^], and its consecutive segments.
    A segment is either a capture group or text between groups; the
    matcher returns the text of every segment. *)
Record regex := {
  re_bol : bool;
  re_segments : list (list item);
}.

(** Match at the start of [s]: the segment texts and what follows. *)
Definition re_match_here (r : regex) (s : list ascii)
    : option (list (list ascii) * list ascii) :=
  m_groups (re_segments r) s (fun ts rest => Some (ts, rest)).

Definition newline : ascii := "010".

(** [re.search(r, s, flags=re.MULTILINE)] on the text that remains, where
    [bol] says that this position starts a line: the text before the
    leftmost match, the segments of the match, and the text after it. *)
Fixpoint re_search_from (r : regex) (bol : bool) (s : list ascii)
    : option (list ascii * list (list ascii) * list ascii) :=
  match (if re_bol r && negb bol then None else re_match_here r s) with
  | Some (ts, rest) => Some ([], ts, rest)
  | None =>
      match s with
      | [] => None
      | c :: s' =>
          match re_search_from r (bool_decide (c = newline)) s' with
          | Some (pre, ts, rest) => Some (c :: pre, ts, rest)
          | None => None
          end
      end
  end.

Definition re_search (r : regex) (s : list ascii) := re_search_from r true s.

(** [str.isspace] on one character, which is what [\s] matches in a text
    pattern. *)
Definition py_isspace (c : ascii) : bool :=
  let n := N_of_ascii c in
  ((9 <=? n) && (n <=? 13) || (28 <=? n) && (n <=? 32)
   || (n =? 133) || (n =? 160))%N.

Definition squote : ascii := "'".
Definition dquote : ascii := "034".
Definition backslash : ascii := "092".

(** The class of the two quote characters, written Q below, and its
    complement, written N. *)
Definition is_quote (c : ascii) : bool :=
  bool_decide (c = squote) || bool_decide (c = dquote).
Definition not_quote (c : ascii) : bool := negb (is_quote c).

(** ** efs_editor.py *)

(** [_SQLCONF_KEY_TO_VAR], in the order of the dictionary. *)
Definition _SQLCONF_KEY_TO_VAR : list (string * string) :=
  [("host", "host"); ("port", "port"); ("username", "login");
   ("password", "pass"); ("dbname", "dbase")].

(** The three stretches of an assignment pattern: [\$var\s*=\s*Q],
    [N+] and [Q\s*;]. *)
Definition assign_head (php_var : string) : list item :=
  Lit "$" :: map Lit (list_ascii_of_string php_var)
  ++ [Star py_isspace; Lit "="; Star py_isspace; Cls is_quote].
Definition assign_value : list item := [Plus not_quote].
Definition assign_tail : list item := [Cls is_quote; Star py_isspace; Lit ";"].

(** [^\$var\s*=\s*Q(N+)Q\s*;] of [parse_sqlconf] and
    [^(\$var\s*=\s*Q)(N+)(Q\s*;)] of [render_sqlconf] have the same
    three segments; the first captures only the middle one. *)
Definition assign_pattern (php_var : string) : regex :=
  {| re_bol := true;
     re_segments := [assign_head php_var; assign_value; assign_tail] |}.

(** [parse_sqlconf]: [m.group(1)] is the middle segment. *)
Definition parse_field (php_var : string) (content : list ascii) : option string :=
  match re_search (assign_pattern php_var) content with
  | Some (_, [_; v; _], _) => Some (string_of_list_ascii v)
  | _ => None
  end.

Definition parse_sqlconf (content : string) : gmap string string :=
  fold_left
    (fun values '(key, php_var) =>
       match parse_field php_var (list_ascii_of_string content) with
       | Some v => <[key := v]> values
       | None => values
       end)
    _SQLCONF_KEY_TO_VAR ∅.

(** The replacement [\g<1>{value}\g<3>]: the first segment, the text
    of the value, the third segment.  [re] reads a backslash in the
    replacement as the start of an escape (a character escape, a group
    reference, or an error); the embedding does not expand escapes and
    stops with [ReError] on a value that holds a backslash, so what is
    proved below about rendering is about values without one. *)
Definition expand_template (ts : list (list ascii)) (value : list ascii)
    : exn + list ascii :=
  if bool_decide (backslash ∈ value) then inl ReError
  else match ts with
       | [g1; _; g3] => inr (g1 ++ value ++ g3)
       | _ => inl IndexError
       end.

(** [re.subn(pattern, repl, updated, count=1, flags=re.MULTILINE)]. *)
Definition re_subn1 (r : regex) (value : list ascii) (s : list ascii)
    : exn + (list ascii * nat) :=
  if bool_decide (backslash ∈ value) then inl ReError
  else match re_search r s with
       | Some (pre, ts, rest) =>
           match expand_template ts value with
           | inr new => inr (pre ++ new ++ rest, 1%nat)
           | inl e => inl e
           end
       | None => inr (s, 0%nat)
       end.

(** One turn of the loop of [render_sqlconf]. *)
Definition render_field (php_var : string) (value : string) (updated : list ascii)
    : exn + list ascii :=
  match re_subn1 (assign_pattern php_var) (list_ascii_of_string value) updated with
  | inl e => inl e
  | inr (updated', count) =>
      if decide (count = 1%nat) then inr updated'
      else inl (ValueError ("Unable to locate $" +:+ php_var
                            +:+ " assignment in sqlconf.php"))
  end.

(** [slot[key]]. *)
Definition getitem {V} (d : gmap string V) (key : string) : exn + V :=
  match d !! key with
  | Some v => inr v
  | None => inl (KeyError key)
  end.

(** The dictionary [replacements], in order, with the value as the
    f-string prints it. *)
Definition replacements (slot : gmap string sval) : exn + list (string * string) :=
  match getitem slot "host" with
  | inl e => inl e
  | inr host =>
  let port := py_str (default (SStr "3306") (slot !! "port")) in
  match getitem slot "username" with
  | inl e => inl e
  | inr username =>
  match getitem slot "password" with
  | inl e => inl e
  | inr password =>
  match getitem slot "dbname" with
  | inl e => inl e
  | inr dbname =>
      inr [("host", py_str host); ("port", port); ("username", py_str username);
           ("password", py_str password); ("dbname", py_str dbname)]
  end end end end.

(** [_SQLCONF_KEY_TO_VAR[key]], for a key of [replacements]. *)
Fixpoint assoc (key : string) (l : list (string * string)) : option string :=
  match l with
  | [] => None
  | (k, v) :: l' => if decide (k = key) then Some v else assoc key l'
  end.

Definition php_var_of (key : string) : string :=
  default key (assoc key _SQLCONF_KEY_TO_VAR).

Fixpoint render_loop (reps : list (string * string)) (updated : list ascii)
    : exn + list ascii :=
  match reps with
  | [] => inr updated
  | (key, value) :: reps' =>
      match render_field (php_var_of key) value updated with
      | inl e => inl e
      | inr updated' => render_loop reps' updated'
      end
  end.

Definition render_sqlconf (content : string) (slot : gmap string sval)
    : exn + string :=
  match replacements slot with
  | inl e => inl e
  | inr reps =>
      match render_loop reps (list_ascii_of_string content) with
      | inl e => inl e
      | inr updated => inr (string_of_list_ascii updated)
      end
  end.

(** ** The world around the orchestrator

    Secrets Manager, the configuration file on EFS, the Kubernetes
    Secret and Deployment, and the MySQL account table are kept as
    in-memory state; every call that leaves the process is numbered and
    may fail as the environment decides. *)

(** The statements [rotate.py] and [validators.py] send. *)
Inductive sql :=
| CreateUserIfNotExists (user password : sval)
| AlterUserRequireSSL (user password : sval)
| AlterUser (user password : sval)
| GrantAllPrivileges (db_name : string) (user : sval)
| FlushPrivileges
| Select1.

(** What the process did to the outside, newest first. *)
Inductive event :=
| EvConnect (user : string) (ok : bool)
| EvExecute (stmt : sql)
| EvPutSecret (secret_id : string) (payload : gmap string jval)
| EvWriteFile (content : string)
| EvPatchSecret (data : gmap string string)
| EvRestart.

#[global] Instance sql_eq_dec : EqDecision sql.
Proof. solve_decision. Defined.

#[global] Instance event_eq_dec : EqDecision event.
Proof. solve_decision. Defined.

Record World := {
  secret_store : gmap string (gmap string jval);
  sqlconf_php : option string;
  k8s_secret_data : gmap string string;
  mysql_users : gmap string string;
  calls : nat;
  draws : nat;
  trace : list event;
}.

(** The environment: the secure random source and the calls that fail. *)
Record Env := {
  rand : nat -> nat;
  fault : nat -> bool;
}.

(** A computation: the exception or the result, and the world reached. *)
Definition M (A : Type) : Type := World -> (exn + A) * World.

Definition ret {A} (a : A) : M A := fun w => (inr a, w).
Definition raise {A} (e : exn) : M A := fun w => (inl e, w).
Definition lift {A} (r : exn + A) : M A := fun w => (r, w).
Definition bind {A B} (m : M A) (k : A -> M B) : M B :=
  fun w =>
    match m w with
    | (inr a, w') => k a w'
    | (inl e, w') => (inl e, w')
    end.

Notation "'let*' x ':=' m 'in' k" := (bind m (fun x => k))
  (at level 10, x name, m at level 100, k at level 200).

(** [try: m except Exception as e: h e]. *)
Definition try_except {A} (m : M A) (h : exn -> M A) : M A :=
  fun w =>
    match m w with
    | (inr a, w') => (inr a, w')
    | (inl e, w') => h e w'
    end.

(** [for x in l: body x]. *)
Fixpoint for_each {A} (l : list A) (body : A -> M unit) : M unit :=
  match l with
  | [] => ret tt
  | x :: l' => let* _ := body x in for_each l' body
  end.

(** A loop whose body may [return] a value ([Some]) or go on ([None]). *)
Fixpoint for_return {A R} (l : list A) (body : A -> M (option R)) : M (option R) :=
  match l with
  | [] => ret None
  | x :: l' =>
      let* r := body x in
      match r with
      | Some v => ret (Some v)
      | None => for_return l' body
      end
  end.

Definition log (ev : event) : M unit :=
  fun w =>
    (inr tt,
     {| secret_store := secret_store w; sqlconf_php := sqlconf_php w;
        k8s_secret_data := k8s_secret_data w; mysql_users := mysql_users w;
        calls := calls w; draws := draws w; trace := ev :: trace w |}).

Definition set_secret_store (f : gmap string (gmap string jval) -> gmap string (gmap string jval)) : M unit :=
  fun w =>
    (inr tt,
     {| secret_store := f (secret_store w); sqlconf_php := sqlconf_php w;
        k8s_secret_data := k8s_secret_data w; mysql_users := mysql_users w;
        calls := calls w; draws := draws w; trace := trace w |}).

Definition set_sqlconf_php (content : string) : M unit :=
  fun w =>
    (inr tt,
     {| secret_store := secret_store w; sqlconf_php := Some content;
        k8s_secret_data := k8s_secret_data w; mysql_users := mysql_users w;
        calls := calls w; draws := draws w; trace := trace w |}).

Definition set_k8s_secret_data (f : gmap string string -> gmap string string) : M unit :=
  fun w =>
    (inr tt,
     {| secret_store := secret_store w; sqlconf_php := sqlconf_php w;
        k8s_secret_data := f (k8s_secret_data w); mysql_users := mysql_users w;
        calls := calls w; draws := draws w; trace := trace w |}).

Definition set_mysql_users (f : gmap string string -> gmap string string) : M unit :=
  fun w =>
    (inr tt,
     {| secret_store := secret_store w; sqlconf_php := sqlconf_php w;
        k8s_secret_data := k8s_secret_data w; mysql_users := f (mysql_users w);
        calls := calls w; draws := draws w; trace := trace w |}).

Definition read {A} (f : World -> A) : M A := fun w => (inr (f w), w).

(** [int(v)]: a number as it is; text is stripped of surrounding
    whitespace, then an optional sign and decimal digits, which single
    underscores may separate. *)
Definition digit_value (c : ascii) : option Z :=
  let n := N_of_ascii c in
  if ((48 <=? n) && (n <=? 57))%N then Some (Z.of_N n - 48) else None.

Fixpoint int_digits (acc : Z) (after_digit : bool) (s : list ascii) : option Z :=
  match s with
  | [] => if after_digit then Some acc else None
  | c :: s' =>
      match digit_value c with
      | Some d => int_digits (10 * acc + d) true s'
      | None =>
          if bool_decide (c = "_"%char) && after_digit
          then int_digits acc false s'
          else None
      end
  end.

Fixpoint drop_while (p : ascii -> bool) (s : list ascii) : list ascii :=
  match s with
  | c :: s' => if p c then drop_while p s' else s
  | [] => []
  end.

Definition strip (s : list ascii) : list ascii :=
  reverse (drop_while py_isspace (reverse (drop_while py_isspace s))).

Definition int_of_text (s : string) : option Z :=
  match strip (list_ascii_of_string s) with
  | c :: s' =>
      if bool_decide (c = "-"%char) then Z.opp <$> int_digits 0 false s'
      else if bool_decide (c = "+"%char) then int_digits 0 false s'
      else int_digits 0 false (c :: s')
  | [] => None
  end.

Definition py_int (v : sval) : exn + Z :=
  match v with
  | SInt n => inr n
  | SStr s =>
      match int_of_text s with
      | Some n => inr n
      | None => inl (ValueError ("invalid literal for int() with base 10: " +:+ s))
      end
  end.

(** [str.isalnum] on one character: a letter or a digit or other numeric
    character of the first 256 code points. *)
Definition py_isalnum_char (c : ascii) : bool :=
  let n := N_of_ascii c in
  ((48 <=? n) && (n <=? 57) || (65 <=? n) && (n <=? 90)
   || (97 <=? n) && (n <=? 122)
   || (n =? 170) || (n =? 178) || (n =? 179) || (n =? 181)
   || (n =? 185) || (n =? 186) || (188 <=? n) && (n <=? 190)
   || (192 <=? n) && (n <=? 214) || (216 <=? n) && (n <=? 246)
   || (248 <=? n))%N.

(** [s.isalnum()]: every character is alphanumeric and there is one. *)
Definition py_isalnum (s : list ascii) : bool :=
  match s with
  | [] => false
  | _ => forallb py_isalnum_char s
  end.

(** [db_name.replace("_", "").isalnum()]. *)
Definition dbname_supported (db_name : string) : bool :=
  py_isalnum (filter (fun c => c <> "_"%char) (list_ascii_of_string db_name)).

(** ** secrets_manager.py: the slot document *)

(** [SlotSecretState.active_slot]; the ARN of the secret, which only the
    message shows, is left out. *)
Definition active_slot (payload : gmap string jval) : exn + string :=
  match payload !! "active_slot" with
  | Some (JVal (SStr a)) =>
      if decide (a = "A") then inr a
      else if decide (a = "B") then inr a
      else inl (ValueError ("Invalid or missing active_slot: " +:+ a))
  | Some (JVal (SInt n)) =>
      inl (ValueError ("Invalid or missing active_slot: " +:+ pretty n))
  | Some (JDict _) => inl (ValueError "Invalid or missing active_slot: {...}")
  | None => inl (ValueError "Invalid or missing active_slot: None")
  end.

(** [SlotSecretState.slot]. *)
Definition slot (payload : gmap string jval) (name : string)
    : exn + gmap string sval :=
  match payload !! name with
  | Some (JDict data) => inr data
  | _ => inl (ValueError ("Slot " +:+ name +:+ " missing"))
  end.

(** [d.setdefault(key, value)]. *)
Definition setdefault (key : string) (value : sval) (d : gmap string sval)
    : gmap string sval :=
  match d !! key with
  | Some _ => d
  | None => <[key := value]> d
  end.

(** A field of the admin document, which is flat: a nested record where
    text is expected is a [TypeError] (Python raises it a little later,
    when the value is used to connect). *)
Definition admin_get (admin : gmap string jval) (key : string) (dflt : sval)
    : exn + sval :=
  match admin !! key with
  | Some (JVal v) => inr v
  | Some (JDict _) => inl TypeError
  | None => inr dflt
  end.

Definition admin_getitem (admin : gmap string jval) (key : string) : exn + sval :=
  match admin !! key with
  | Some (JVal v) => inr v
  | Some (JDict _) => inl TypeError
  | None => inl (KeyError key)
  end.

(** Python's truth value of a field. *)
Definition truthy (v : sval) : bool :=
  match v with
  | SStr s => negb (bool_decide (s = ""))
  | SInt n => negb (n =? 0)
  end.

(** [rotate.py: RotationContext]. *)
Record RotationContext := {
  region : string;
  rds_slots_secret_id : string;
  rds_admin_secret_id : string;
  sites_mount_root : string;
  k8s_namespace : string;
  k8s_deployment_name : string;
  k8s_secret_name : string;
  openemr_health_url : option string;
  dry_run : bool;
}.

Section Orchestrator.
Context (env : Env) (ctx : RotationContext).

(** A call that leaves the process: it takes the next number and
    raises [err] when the environment makes that call fail. *)
Definition external (err : nat -> exn) : M nat :=
  fun w =>
    let n := calls w in
    let w' :=
      {| secret_store := secret_store w; sqlconf_php := sqlconf_php w;
         k8s_secret_data := k8s_secret_data w; mysql_users := mysql_users w;
         calls := S n; draws := draws w; trace := trace w |} in
    if fault env n then (inl (err n), w') else (inr n, w').

(** *** secrets_manager.py *)

(** [secrets.choice(seq)]: the element at a random index. *)
Definition secrets_choice (seq : string) : M ascii :=
  fun w =>
    let i := draws w in
    let w' :=
      {| secret_store := secret_store w; sqlconf_php := sqlconf_php w;
         k8s_secret_data := k8s_secret_data w; mysql_users := mysql_users w;
         calls := calls w; draws := S i; trace := trace w |} in
    match String.get (rand env i mod String.length seq)%nat seq with
    | Some c => (inr c, w')
    | None => (inl IndexError, w')
    end.

(** [c for _ in range(n)], collected. *)
Fixpoint repeat_choice (n : nat) : M (list ascii) :=
  match n with
  | O => ret []
  | S n' =>
      let* c := secrets_choice alphabet in
      let* cs := repeat_choice n' in
      ret (c :: cs)
  end.

(** [generate_password(length=30)]; [None] is the call without the
    argument. *)
Definition generate_password (length : option Z) : M string :=
  let length := default 30 length in
  let* cs := repeat_choice (Z.to_nat length) in
  ret (string_of_list_ascii cs).

(** [SecretsManagerSlots.get_secret]; the state is its payload. *)
Definition get_secret (secret_id : string) : M (gmap string jval) :=
  let* _ := external ClientError in
  let* store := read secret_store in
  match store !! secret_id with
  | Some payload => ret payload
  | None => raise (ResourceNotFound secret_id)
  end.

(** [SecretsManagerSlots.put_payload]. *)
Definition put_payload (secret_id : string) (payload : gmap string jval) : M unit :=
  let* _ := external ClientError in
  let* _ := set_secret_store (insert secret_id payload) in
  log (EvPutSecret secret_id payload).

(** *** config_discovery.py and efs_editor.py: the file *)

Definition discover_runtime_paths : M unit :=
  let* file := read sqlconf_php in
  match file with
  | Some _ => ret tt
  | None => raise FileNotFoundError
  end.

Definition read_text : M string :=
  let* _ := external OSError in
  let* file := read sqlconf_php in
  match file with
  | Some content => ret content
  | None => raise FileNotFoundError
  end.

(** [atomic_write]: the rename puts the whole content in place or, when
    a step before it fails, leaves the file as it was. *)
Definition atomic_write (content : string) : M unit :=
  let* _ := external OSError in
  let* _ := set_sqlconf_php content in
  log (EvWriteFile content).

(** *** The database *)

(** [pymysql.connect(user=..., password=...)] against the one database
    instance: refused ([OperationalError]) when the call fails or the
    account table has no such user with that password. *)
Definition pymysql_connect (user password : sval) : M unit :=
  let* n := external OperationalError in
  match user, password with
  | SStr u, SStr p =>
      let* users := read mysql_users in
      let ok := bool_decide (users !! u = Some p) in
      let* _ := log (EvConnect u ok) in
      if ok then ret tt else raise (OperationalError n)
  | _, _ => raise TypeError
  end.

(** [cur.execute(stmt, args)] on an open connection.  A parameter that
    is a number is sent unquoted where the statement wants a name or a
    password, which the server refuses. *)
Definition execute (stmt : sql) : M unit :=
  let* n := external OperationalError in
  let* users := read mysql_users in
  let* _ := log (EvExecute stmt) in
  match stmt with
  | CreateUserIfNotExists (SStr u) (SStr p) =>
      match users !! u with
      | Some _ => ret tt
      | None => set_mysql_users (insert u p)
      end
  | AlterUserRequireSSL (SStr u) (SStr p) | AlterUser (SStr u) (SStr p) =>
      match users !! u with
      | Some _ => set_mysql_users (insert u p)
      | None => raise (OperationalError n)
      end
  | GrantAllPrivileges _ (SStr u) =>
      match users !! u with
      | Some _ => ret tt
      | None => raise (OperationalError n)
      end
  | FlushPrivileges | Select1 => ret tt
  | _ => raise ProgrammingError
  end.

(** *** validators.py *)

(** [validate_rds_connection]; the query [SELECT 1] answers 1 when it
    runs. *)
Definition validate_rds_connection (slot : gmap string sval) : M unit :=
  let* _ := lift (getitem slot "host") in
  let* user := lift (getitem slot "username") in
  let* password := lift (getitem slot "password") in
  let* _ := lift (getitem slot "dbname") in
  let* _ := lift (py_int (default (SInt 3306) (slot !! "port"))) in
  let* _ := pymysql_connect user password in
  execute Select1.

(** [validate_openemr_health]: without a URL nothing is asked; with
    one, whatever the probe meets is only printed. *)
Definition validate_openemr_health (health_url : option string) : M unit :=
  match health_url with
  | None => ret tt
  | Some url =>
      if decide (url = "") then ret tt
      else try_except (let* _ := external ApiException in ret tt)
                      (fun _ => ret tt)
  end.

(** *** k8s_refresh.py *)

(** [slot[key].encode()]. *)
Definition encoded (slot : gmap string sval) (key : string) : exn + string :=
  match slot !! key with
  | Some (SStr s) => inr s
  | Some (SInt _) => inl AttributeError
  | None => inl (KeyError key)
  end.

(** The [data] of the patch of [update_k8s_db_secret]; the mirror keeps
    the values themselves, not their base64 form. *)
Definition mirror_data (host user password database : string) : gmap string string :=
  <["mysql-host" := host]> (<["mysql-user" := user]>
  (<["mysql-password" := password]> (<["mysql-database" := database]> ∅))).

(** [update_k8s_db_secret]: the patch replaces the four keys and leaves
    the others. *)
Definition update_k8s_db_secret (slot : gmap string sval) : M unit :=
  let* host := lift (encoded slot "host") in
  let* user := lift (encoded slot "username") in
  let* password := lift (encoded slot "password") in
  let* database := lift (encoded slot "dbname") in
  let data := mirror_data host user password database in
  let* _ := external ApiException in
  let* _ := set_k8s_secret_data (fun old => data ∪ old) in
  log (EvPatchSecret data).

(** [_wait_for_rollout]: the polling until the deadline is one question
    to the environment, whether the rollout converges in time. *)
Definition _wait_for_rollout : M unit :=
  let* _ := external (fun _ =>
    RuntimeError ("Deployment '" +:+ k8s_deployment_name ctx
                  +:+ "' rollout did not complete within 1800s")) in
  ret tt.

(** [rollout_restart_deployment]. *)
Definition rollout_restart_deployment : M unit :=
  let* _ := external ApiException in
  let* _ := log EvRestart in
  _wait_for_rollout.

(** *** rotate.py: RotationOrchestrator *)

(** [_slot_matches_sqlconf]. *)
Definition _slot_matches_sqlconf (slot : gmap string sval)
    (sqlconf : gmap string string) : bool :=
  bool_decide (sqlconf !! "host" = Some (py_str_get slot "host"))
  && bool_decide (default "3306" (sqlconf !! "port")
                  = py_str (default (SStr "3306") (slot !! "port")))
  && bool_decide (sqlconf !! "username" = Some (py_str_get slot "username"))
  && bool_decide (sqlconf !! "password" = Some (py_str_get slot "password"))
  && bool_decide (sqlconf !! "dbname" = Some (py_str_get slot "dbname")).

(** [_ensure_slot_initialized]: the record with its defaults; the
    password is generated whether or not it is used. *)
Definition _ensure_slot_initialized (slot : gmap string sval)
    (fallback_host fallback_db : sval) : M (gmap string sval) :=
  let slot := setdefault "username" (SStr "openemr_slot") slot in
  let* password := generate_password None in
  let slot := setdefault "password" (SStr password) slot in
  let slot := setdefault "host" fallback_host slot in
  let slot := setdefault "port" (SStr "3306") slot in
  let slot := setdefault "dbname" fallback_db slot in
  ret slot.

(** [try: pymysql.connect(user=..., password=...).close()] with
    [except pymysql.OperationalError]: whether the connection opened.
    The two arguments are evaluated inside the [try]. *)
Definition connection_opens (user password : exn + sval) : M bool :=
  try_except
    (let* user := lift user in
     let* password := lift password in
     let* _ := pymysql_connect user password in
     ret true)
    (fun e =>
       match e with
       | OperationalError _ => ret false
       | _ => raise e
       end).

(** The body of the loop of [_load_admin_secret] over the slot names:
    [Some admin] when it returns, [None] when it goes on. *)
Definition _load_admin_secret_try (admin rds_state : gmap string jval)
    (slot_name : string) : M (option (gmap string jval)) :=
  let* slot := lift (slot rds_state slot_name) in
  let* username := lift (admin_getitem admin "username") in
  if decide (slot !! "username" = Some username) then
    let* opened :=
      connection_opens (admin_getitem admin "username")
                       (getitem slot "password") in
    if opened then
      let* password := lift (getitem slot "password") in
      let admin := <["password" := JVal password]> admin in
      let* _ := put_payload (rds_admin_secret_id ctx) admin in
      ret (Some admin)
    else ret None
  else ret None.

(** [_load_admin_secret]. *)
Definition _load_admin_secret : M (gmap string jval) :=
  let* admin := get_secret (rds_admin_secret_id ctx) in
  let* host := lift (admin_get admin "host" (SStr "")) in
  let* port_v := lift (admin_get admin "port" (SInt 3306)) in
  let* port := lift (py_int port_v) in
  let* stored_ok :=
    connection_opens (admin_getitem admin "username")
                     (admin_getitem admin "password") in
  if stored_ok then ret admin
  else
    let* rds_state := get_secret (rds_slots_secret_id ctx) in
    let* found :=
      for_return ["A"; "B"] (_load_admin_secret_try admin rds_state) in
    match found with
    | Some admin => ret admin
    | None =>
        raise (RuntimeError
          ("Admin credentials in RDS admin secret are invalid and no fallback "
           +:+ "password was found. Reset the RDS master password manually."))
    end.

(** [_upsert_openemr_db_user]. *)
Definition _upsert_openemr_db_user (slot : gmap string sval) : M unit :=
  let* admin := _load_admin_secret in
  let* admin_host_v := lift (admin_get admin "host" (SStr "")) in
  let* admin_host :=
    if truthy admin_host_v then ret admin_host_v
    else lift (getitem slot "host") in
  let* admin_port_v := lift (admin_get admin "port" (SInt 3306)) in
  let* admin_port := lift (py_int admin_port_v) in
  let* admin_user := lift (admin_getitem admin "username") in
  let* admin_password := lift (admin_getitem admin "password") in
  let* db_name_v := lift (getitem slot "dbname") in
  let* db_name :=
    match db_name_v with
    | SStr s => ret s
    | SInt _ => raise AttributeError
    end in
  if negb (dbname_supported db_name)
  then raise (ValueError ("Unsupported dbname for rotation: " +:+ db_name))
  else
    let* _ := pymysql_connect admin_user admin_password in
    let* username := lift (getitem slot "username") in
    let* password := lift (getitem slot "password") in
    let* _ := execute (CreateUserIfNotExists username password) in
    let* _ := execute (AlterUserRequireSSL username password) in
    let* _ := execute (GrantAllPrivileges db_name username) in
    execute FlushPrivileges.

(** [_rotate_admin_password]. *)
Definition _rotate_admin_password : M unit :=
  let* admin := _load_admin_secret in
  let* host := lift (admin_get admin "host" (SStr "")) in
  let* port_v := lift (admin_get admin "port" (SInt 3306)) in
  let* port := lift (py_int port_v) in
  let* username := lift (admin_getitem admin "username") in
  let* old_password := lift (admin_getitem admin "password") in
  let* new_password := generate_password None in
  let* _ := pymysql_connect username old_password in
  let* _ := execute (AlterUser username (SStr new_password)) in
  let* _ := pymysql_connect username (SStr new_password) in
  let admin := <["password" := JVal (SStr new_password)]> admin in
  put_payload (rds_admin_secret_id ctx) admin.

(** [_rotate_old_slot]. *)
Definition _rotate_old_slot (new_active old_slot : string) : M unit :=
  let* rds_state := get_secret (rds_slots_secret_id ctx) in
  let* new_active_slot := lift (slot rds_state new_active) in
  let* old_rds := lift (slot rds_state old_slot) in
  let* password := generate_password None in
  let old_rds := <["password" := SStr password]> old_rds in
  let* _ :=
    if negb (dry_run ctx) then
      let* _ := _upsert_openemr_db_user old_rds in
      validate_rds_connection old_rds
    else ret tt in
  if dry_run ctx then ret tt
  else
    let rds_payload := rds_state in
    let rds_payload := <[old_slot := JDict old_rds]> rds_payload in
    let rds_payload := <[new_active := JDict new_active_slot]> rds_payload in
    let rds_payload := <["active_slot" := JVal (SStr new_active)]> rds_payload in
    put_payload (rds_slots_secret_id ctx) rds_payload.

(** [_validate_runtime]. *)
Definition _validate_runtime (rds_slot : gmap string sval) : M unit :=
  let* _ := validate_rds_connection rds_slot in
  validate_openemr_health (openemr_health_url ctx).

(** [_rollback]. *)
Definition _rollback (original_sqlconf_content : string)
    (active_slot : gmap string sval) : M unit :=
  let* _ := atomic_write original_sqlconf_content in
  let* _ := update_k8s_db_secret active_slot in
  let* _ := rollout_restart_deployment in
  _validate_runtime active_slot.

(** The record [_bootstrap_slots_from_sqlconf] builds for a slot: the
    host, port and database name of the configuration, with the given
    user name and password. *)
Definition bootstrap_slot (current_sqlconf : gmap string string)
    (username password : string) : gmap string sval :=
  let host := default "" (current_sqlconf !! "host") in
  let port := default "3306" (current_sqlconf !! "port") in
  let dbname := default "openemr" (current_sqlconf !! "dbname") in
  <["username" := SStr username]> (<["password" := SStr password]>
  (<["host" := SStr host]> (<["port" := SStr port]>
  (<["dbname" := SStr dbname]> ∅)))).

(** [_bootstrap_slots_from_sqlconf]. *)
Definition _bootstrap_slots_from_sqlconf (current_sqlconf : gmap string string)
    (rds_state : gmap string jval) (active standby : string) : M unit :=
  let* password_a := generate_password None in
  let slot_a := bootstrap_slot current_sqlconf "openemr_a" password_a in
  let* password_b := generate_password None in
  let slot_b := bootstrap_slot current_sqlconf "openemr_b" password_b in
  let* _ :=
    if negb (dry_run ctx) then
      let* _ := _upsert_openemr_db_user slot_a in
      let* _ := validate_rds_connection slot_a in
      let* _ := _upsert_openemr_db_user slot_b in
      validate_rds_connection slot_b
    else ret tt in
  let rds_payload := rds_state in
  let rds_payload := <[active := JDict slot_a]> rds_payload in
  let rds_payload := <[standby := JDict slot_b]> rds_payload in
  let rds_payload := <["active_slot" := JVal (SStr active)]> rds_payload in
  if negb (dry_run ctx)
  then put_payload (rds_slots_secret_id ctx) rds_payload
  else ret tt.

(** [_reconcile_active_slot_to_standby]. *)
Definition _reconcile_active_slot_to_standby (rds_state : gmap string jval)
    (active standby : string) : M unit :=
  let rds_payload := <["active_slot" := JVal (SStr standby)]> rds_state in
  let* _ :=
    if negb (dry_run ctx)
    then put_payload (rds_slots_secret_id ctx) rds_payload
    else ret tt in
  _rotate_old_slot standby active.

(** What [rotate] holds when it enters its [try]. *)
Record cutover_state := {
  cs_rds_state : gmap string jval;
  cs_active : string;
  cs_standby : string;
  cs_active_slot : gmap string sval;
  cs_standby_slot : gmap string sval;
  cs_original_sqlconf_content : string;
  cs_updated_sqlconf_content : string;
}.

(** [rotate] from the test [config_matches_active and active == "B"] up
    to the [try]: [None] when the method has returned, the values it
    holds when it goes on into the [try]. *)
Definition rotate_tail (rds_state : gmap string jval) (active standby : string)
    (active_slot standby_slot : gmap string sval)
    (config_matches_active : bool) : M (option cutover_state) :=
  if config_matches_active && bool_decide (active = "B") then
    let* _ := _rotate_old_slot active standby in
    let* _ := if negb (dry_run ctx) then _rotate_admin_password else ret tt in
    ret None
  else
    let* _ := _upsert_openemr_db_user standby_slot in
    let* _ := validate_rds_connection standby_slot in
    let* original_sqlconf_content := read_text in
    let* updated_sqlconf_content :=
      lift (render_sqlconf original_sqlconf_content standby_slot) in
    if dry_run ctx then ret None
    else
      ret (Some {| cs_rds_state := rds_state; cs_active := active;
                   cs_standby := standby; cs_active_slot := active_slot;
                   cs_standby_slot := standby_slot;
                   cs_original_sqlconf_content := original_sqlconf_content;
                   cs_updated_sqlconf_content := updated_sqlconf_content |}).

(** [rotate] from the two comparisons of the configuration with the slots
    up to the [try]. *)
Definition rotate_branches (rds_state : gmap string jval) (active standby : string)
    (active_slot standby_slot : gmap string sval)
    (current_sqlconf : gmap string string) : M (option cutover_state) :=
  let config_matches_active := _slot_matches_sqlconf active_slot current_sqlconf in
  let config_matches_standby := _slot_matches_sqlconf standby_slot current_sqlconf in
  if negb config_matches_active && negb config_matches_standby then
    let* _ :=
      _bootstrap_slots_from_sqlconf current_sqlconf rds_state active standby in
    let* rds_state := get_secret (rds_slots_secret_id ctx) in
    let* active_slot := lift (slot rds_state active) in
    let* standby_slot := lift (slot rds_state standby) in
    rotate_tail rds_state active standby active_slot standby_slot true
  else if config_matches_standby && negb config_matches_active then
    let* _ := _reconcile_active_slot_to_standby rds_state active standby in
    let* _ := if negb (dry_run ctx) then _rotate_admin_password else ret tt in
    ret None
  else
    rotate_tail rds_state active standby active_slot standby_slot
      config_matches_active.

(** [rotate] up to the [try]. *)
Definition rotate_to_cutover : M (option cutover_state) :=
  let* _ := discover_runtime_paths in
  let* rds_state := get_secret (rds_slots_secret_id ctx) in
  let* active := lift (active_slot rds_state) in
  let* standby := lift (standby_slot active) in
  let* _ :=
    if negb (dry_run ctx)
    then (let* _ := _load_admin_secret in ret tt)
    else ret tt in
  let* content := read_text in
  let current_sqlconf := parse_sqlconf content in
  let* active_slot := lift (slot rds_state active) in
  let* standby_slot := lift (slot rds_state standby) in
  let* fallback_host := lift (getitem active_slot "host") in
  let* fallback_db := lift (getitem active_slot "dbname") in
  let* standby_slot :=
    _ensure_slot_initialized standby_slot fallback_host fallback_db in
  let* fallback_host := lift (getitem standby_slot "host") in
  let* fallback_db := lift (getitem standby_slot "dbname") in
  let* active_slot :=
    _ensure_slot_initialized active_slot fallback_host fallback_db in
  (* the two records are the ones the payload holds: it sees the defaults *)
  let rds_state :=
    <[active := JDict active_slot]> (<[standby := JDict standby_slot]> rds_state) in
  let* _ :=
    if negb (dry_run ctx) then
      for_each ["A"; "B"] (fun slot_name =>
        let* slot := lift (slot rds_state slot_name) in
        _upsert_openemr_db_user slot)
    else ret tt in
  rotate_branches rds_state active standby active_slot standby_slot current_sqlconf.

(** The body of the [try] of [rotate]. *)
Definition cutover (st : cutover_state) : M unit :=
  let* _ := atomic_write (cs_updated_sqlconf_content st) in
  let* _ := update_k8s_db_secret (cs_standby_slot st) in
  let* _ := rollout_restart_deployment in
  let* _ := _validate_runtime (cs_standby_slot st) in
  let rds_payload :=
    <["active_slot" := JVal (SStr (cs_standby st))]> (cs_rds_state st) in
  put_payload (rds_slots_secret_id ctx) rds_payload.

(** [rotate].  [rollback_needed] is true wherever the [try] can raise,
    so the handler always rolls back before it raises again. *)
Definition rotate : M unit :=
  let* reached := rotate_to_cutover in
  match reached with
  | None => ret tt
  | Some st =>
      let* _ :=
        try_except (cutover st)
          (fun e =>
             let* _ := _rollback (cs_original_sqlconf_content st)
                                 (cs_active_slot st) in
             raise e) in
      let* _ := _rotate_old_slot (cs_standby st) (cs_active st) in
      _rotate_admin_password
  end.

End Orchestrator.

(** * Properties *)

(** ** The monad *)

Lemma bind_ok {A B} (m : M A) (k : A -> M B) w b w' :
  bind m k w = (inr b, w') ->
  exists a w1, m w = (inr a, w1) /\ k a w1 = (inr b, w').
Proof.
  unfold bind. destruct (m w) as [[e|a] w1]; [discriminate|]. eauto.
Qed.

Lemma bind_err {A B} (m : M A) (k : A -> M B) w e w' :
  bind m k w = (inl e, w') ->
  m w = (inl e, w') \/ exists a w1, m w = (inr a, w1) /\ k a w1 = (inl e, w').
Proof.
  unfold bind. destruct (m w) as [[e1|a] w1]; [left; congruence|]. eauto.
Qed.

Lemma bind_step {A B} (m : M A) (k : A -> M B) w a w1 :
  m w = (inr a, w1) -> bind m k w = k a w1.
Proof. unfold bind. intros ->. reflexivity. Qed.

Lemma bind_fail {A B} (m : M A) (k : A -> M B) w e w1 :
  m w = (inl e, w1) -> bind m k w = (inl e, w1).
Proof. unfold bind. intros ->. reflexivity. Qed.

(** ** standby_slot *)

(** C8. On the labels A and B, [standby_slot] answers the other label
    and is its own inverse; on any other text it raises [ValueError]. *)
Theorem standby_slot_involution :
  (forall x, x = "A" \/ x = "B" ->
     exists y, standby_slot x = inr y /\ standby_slot y = inr x
               /\ (y = "A" \/ y = "B") /\ y <> x)
  /\ (forall x, x <> "A" -> x <> "B" ->
        standby_slot x = inl (ValueError ("Invalid active slot: " +:+ x))).
Proof.
  split.
  - intros x [-> | ->]; [exists "B" | exists "A"]; repeat split; auto; discriminate.
  - intros x HA HB. unfold standby_slot.
    destruct (decide (x = "A")); [contradiction|].
    destruct (decide (x = "B")); [contradiction|]. reflexivity.
Qed.

Lemma standby_slot_involution_witness :
  (exists y, standby_slot "A" = inr y /\ standby_slot y = inr "A"
             /\ (y = "A" \/ y = "B") /\ y <> "A")
  /\ standby_slot "C" = inl (ValueError "Invalid active slot: C").
Proof.
  split.
  - apply (proj1 standby_slot_involution "A"). left. reflexivity.
  - apply (proj2 standby_slot_involution "C"); discriminate.
Defined.

(** ** generate_password *)

(** An ASCII letter or digit, by its code. *)
Definition ascii_alnum (c : ascii) : bool :=
  let n := N_of_ascii c in
  ((48 <=? n) && (n <=? 57) || (65 <=? n) && (n <=? 90)
   || (97 <=? n) && (n <=? 122))%N.

Lemma alphabet_alnum c :
  In c (list_ascii_of_string alphabet) -> ascii_alnum c = true.
Proof.
  intros H. vm_compute in H.
  repeat (destruct H as [<- | H]; [reflexivity|]). destruct H.
Qed.

Lemma string_get_lt (s : string) (i : nat) :
  (i < String.length s)%nat ->
  exists c, String.get i s = Some c /\ In c (list_ascii_of_string s).
Proof.
  revert i. induction s as [|a s IH]; intros i Hi; simpl in *; [lia|].
  destruct i as [|i].
  - exists a. auto.
  - destruct (IH i) as (c & Hc & Hin); [lia|]. exists c. auto.
Qed.

(** What one run of the generator leaves of the world: only the number
    of draws moves. *)
Definition drawn (k : nat) (w : World) : World :=
  {| secret_store := secret_store w; sqlconf_php := sqlconf_php w;
     k8s_secret_data := k8s_secret_data w; mysql_users := mysql_users w;
     calls := calls w; draws := (k + draws w)%nat; trace := trace w |}.

Lemma drawn_0 w : drawn 0 w = w.
Proof. destruct w; reflexivity. Qed.

Lemma drawn_drawn j k w : drawn j (drawn k w) = drawn (j + k) w.
Proof. unfold drawn; simpl. f_equal. lia. Qed.

Lemma secrets_choice_alphabet env w :
  exists c, secrets_choice env alphabet w = (inr c, drawn 1 w)
            /\ In c (list_ascii_of_string alphabet).
Proof.
  unfold secrets_choice.
  destruct (string_get_lt alphabet (rand env (draws w) mod String.length alphabet)%nat)
    as (c & Hc & Hin).
  - apply Nat.mod_upper_bound. discriminate.
  - rewrite Hc. eauto.
Qed.

Lemma repeat_choice_spec env n w :
  exists cs, repeat_choice env n w = (inr cs, drawn n w)
             /\ length cs = n
             /\ Forall (fun c => In c (list_ascii_of_string alphabet)) cs.
Proof.
  revert w. induction n as [|n IH]; intros w; simpl.
  - exists []. rewrite drawn_0. repeat split; constructor.
  - destruct (secrets_choice_alphabet env w) as (c & Hc & Hin).
    destruct (IH (drawn 1 w)) as (cs & Hcs & Hlen & Hall).
    exists (c :: cs). unfold bind. rewrite Hc, Hcs. unfold ret.
    rewrite drawn_drawn. replace (n + 1)%nat with (S n) by lia.
    repeat split; [simpl; lia | constructor; assumption].
Qed.

Lemma length_string_of_list_ascii cs :
  String.length (string_of_list_ascii cs) = length cs.
Proof. induction cs; simpl; congruence. Qed.

(** C9. For a length [n >= 0] and any random source, [generate_password]
    returns text of exactly [n] characters, each an ASCII letter or digit
    of the 62-character alphabet; only the random source is consumed;
    without an argument the length is 30. *)
Theorem generate_password_length_alphabet env (n : Z) (w : World) :
  0 <= n ->
  exists pw,
    generate_password env (Some n) w = (inr pw, drawn (Z.to_nat n) w)
    /\ Z.of_nat (String.length pw) = n
    /\ (forall c, In c (list_ascii_of_string pw) ->
          In c (list_ascii_of_string alphabet) /\ ascii_alnum c = true)
    /\ String.length alphabet = 62%nat
    /\ NoDup (list_ascii_of_string alphabet)
    /\ generate_password env None w = generate_password env (Some 30) w.
Proof.
  intros Hn. unfold generate_password; simpl.
  destruct (repeat_choice_spec env (Z.to_nat n) w) as (cs & Hcs & Hlen & Hall).
  rewrite (bind_step _ _ _ _ _ Hcs).
  exists (string_of_list_ascii cs). unfold ret. repeat split.
  - rewrite length_string_of_list_ascii, Hlen. lia.
  - rewrite list_ascii_of_string_of_list_ascii in H.
    rewrite Forall_forall in Hall. apply Hall.
    apply list_elem_of_In. assumption.
  - rewrite list_ascii_of_string_of_list_ascii in H.
    apply alphabet_alnum. rewrite Forall_forall in Hall. apply Hall.
    apply list_elem_of_In. assumption.
  - apply (bool_decide_unpack _). vm_compute. reflexivity.
Qed.

Lemma generate_password_length_alphabet_witness :
  exists pw,
    generate_password {| rand := fun i => i; fault := fun _ => false |} (Some 4)
      {| secret_store := ∅; sqlconf_php := None; k8s_secret_data := ∅;
         mysql_users := ∅; calls := 0; draws := 0; trace := [] |}
    = (inr pw, drawn 4
         {| secret_store := ∅; sqlconf_php := None; k8s_secret_data := ∅;
            mysql_users := ∅; calls := 0; draws := 0; trace := [] |})
    /\ Z.of_nat (String.length pw) = 4.
Proof.
  destruct (generate_password_length_alphabet
              {| rand := fun i => i; fault := fun _ => false |} 4
              {| secret_store := ∅; sqlconf_php := None; k8s_secret_data := ∅;
                 mysql_users := ∅; calls := 0; draws := 0; trace := [] |})
    as (pw & H1 & H2 & _); [lia|].
  exists pw. split; assumption.
Defined.

(** ** What an operation leaves alone

    [keeps P m]: whatever [m] returns or raises, the world it leaves is
    related by [P] to the world it started from. *)

Definition keeps {A} (P : World -> World -> Prop) (m : M A) : Prop :=
  forall w r w', m w = (r, w') -> P w w'.

Section Keeps.
Context (P : World -> World -> Prop) `{!PreOrder P}.

Lemma keeps_ret {A} (a : A) : keeps P (ret a).
Proof. intros w r w' [= _ <-]. reflexivity. Qed.

Lemma keeps_raise {A} e : keeps P (@raise A e).
Proof. intros w r w' [= _ <-]. reflexivity. Qed.

Lemma keeps_lift {A} (x : exn + A) : keeps P (lift x).
Proof. intros w r w' [= _ <-]. reflexivity. Qed.

Lemma keeps_read {A} (f : World -> A) : keeps P (read f).
Proof. intros w r w' [= _ <-]. reflexivity. Qed.

Lemma keeps_bind {A B} (m : M A) (k : A -> M B) :
  keeps P m -> (forall a, keeps P (k a)) -> keeps P (bind m k).
Proof.
  intros Hm Hk w r w' H. unfold bind in H.
  destruct (m w) as [[e|a] w1] eqn:E.
  - injection H as _ <-. eapply Hm; eauto.
  - transitivity w1; [eapply Hm | eapply Hk]; eauto.
Qed.

Lemma keeps_try {A} (m : M A) (h : exn -> M A) :
  keeps P m -> (forall e, keeps P (h e)) -> keeps P (try_except m h).
Proof.
  intros Hm Hh w r w' H. unfold try_except in H.
  destruct (m w) as [[e|a] w1] eqn:E.
  - transitivity w1; [eapply Hm | eapply Hh]; eauto.
  - injection H as _ <-. eapply Hm; eauto.
Qed.

Lemma keeps_for_each {A} (l : list A) (body : A -> M unit) :
  (forall x, keeps P (body x)) -> keeps P (for_each l body).
Proof.
  intros Hb. induction l; simpl; [apply keeps_ret|].
  apply keeps_bind; auto.
Qed.

Lemma keeps_for_return {A R} (l : list A) (body : A -> M (option R)) :
  (forall x, keeps P (body x)) -> keeps P (for_return l body).
Proof.
  intros Hb. induction l; simpl; [apply keeps_ret|].
  apply keeps_bind; auto. intros [v|]; [apply keeps_ret | assumption].
Qed.
End Keeps.

Create HintDb keeps_db.

(** Take a compound operation apart down to the calls it makes. *)
Ltac keeps_step :=
  lazymatch goal with
  | |- keeps _ (bind _ _) => apply keeps_bind; [try typeclasses eauto | | intros ?]
  | |- keeps _ (ret _) => apply keeps_ret; try typeclasses eauto
  | |- keeps _ (raise _) => apply keeps_raise; try typeclasses eauto
  | |- keeps _ (lift _) => apply keeps_lift; try typeclasses eauto
  | |- keeps _ (read _) => apply keeps_read; try typeclasses eauto
  | |- keeps _ (try_except _ _) => apply keeps_try; [try typeclasses eauto | | intros ?]
  | |- keeps _ (for_each _ _) => apply keeps_for_each; [try typeclasses eauto | intros ?]
  | |- keeps _ (for_return _ _) => apply keeps_for_return; [try typeclasses eauto | intros ?]
  | |- keeps _ (if ?b then _ else _) => destruct b
  | |- keeps _ (match ?x with _ => _ end) => destruct x
  | |- keeps _ _ => first [ solve [eauto with keeps_db] | cbv zeta ]
  end.

Ltac keeps_tac := repeat keeps_step.

(** The configuration file and the cluster are as they were, and nothing
    was written, patched or restarted. *)
Definition cluster_event (ev : event) : bool :=
  match ev with
  | EvWriteFile _ | EvPatchSecret _ | EvRestart => true
  | _ => false
  end.

Record cluster_untouched (w w' : World) : Prop := {
  cu_file : sqlconf_php w' = sqlconf_php w;
  cu_k8s : k8s_secret_data w' = k8s_secret_data w;
  cu_trace : exists evs, trace w' = evs ++ trace w
                         /\ forallb (fun ev => negb (cluster_event ev)) evs = true;
}.

#[global] Instance cluster_untouched_preorder : PreOrder cluster_untouched.
Proof.
  split.
  - intros w. split; auto. exists []. auto.
  - intros w1 w2 w3 [F1 K1 (e1 & T1 & A1)] [F2 K2 (e2 & T2 & A2)]. split.
    + congruence.
    + congruence.
    + exists (e2 ++ e1). rewrite T2, T1, app_assoc. split; [reflexivity|].
      rewrite forallb_app, A1, A2. reflexivity.
Qed.

(** The secret store is as it was, except perhaps under [id]. *)
Definition store_but (id : string) (w w' : World) : Prop :=
  forall id', id' <> id -> secret_store w' !! id' = secret_store w !! id'.

#[global] Instance store_but_preorder id : PreOrder (store_but id).
Proof.
  split.
  - intros w id' _. reflexivity.
  - intros w1 w2 w3 H1 H2 id' Hne. rewrite H2, H1; auto.
Qed.

(** The secret store is as it was, and nothing was put. *)
Definition is_put (ev : event) : bool :=
  match ev with
  | EvPutSecret _ _ => true
  | _ => false
  end.

Record store_untouched (w w' : World) : Prop := {
  su_store : secret_store w' = secret_store w;
  su_trace : exists evs, trace w' = evs ++ trace w
                         /\ forallb (fun ev => negb (is_put ev)) evs = true;
}.

#[global] Instance store_untouched_preorder : PreOrder store_untouched.
Proof.
  split.
  - intros w. split; auto. exists []. auto.
  - intros w1 w2 w3 [S1 (e1 & T1 & A1)] [S2 (e2 & T2 & A2)]. split.
    + congruence.
    + exists (e2 ++ e1). rewrite T2, T1, app_assoc. split; [reflexivity|].
      rewrite forallb_app, A1, A2. reflexivity.
Qed.

(** The random source was not consulted. *)
Definition same_draws (w w' : World) : Prop := draws w' = draws w.

#[global] Instance same_draws_preorder : PreOrder same_draws.
Proof. split; unfold same_draws; [intros w | intros w1 w2 w3]; congruence. Qed.

(** The database accounts are as they were, and no statement was sent
    and no connection opened. *)
Definition is_db (ev : event) : bool :=
  match ev with
  | EvConnect _ _ | EvExecute _ => true
  | _ => false
  end.

Record db_untouched (w w' : World) : Prop := {
  du_users : mysql_users w' = mysql_users w;
  du_trace : exists evs, trace w' = evs ++ trace w
                         /\ forallb (fun ev => negb (is_db ev)) evs = true;
}.

#[global] Instance db_untouched_preorder : PreOrder db_untouched.
Proof.
  split.
  - intros w. split; auto. exists []. auto.
  - intros w1 w2 w3 [S1 (e1 & T1 & A1)] [S2 (e2 & T2 & A2)]. split.
    + congruence.
    + exists (e2 ++ e1). rewrite T2, T1, app_assoc. split; [reflexivity|].
      rewrite forallb_app, A1, A2. reflexivity.
Qed.

(** The calls the operations are made of. *)
Ltac prim_tac :=
  intros w r w' H;
  repeat match type of H with
         | context [if ?b then _ else _] => destruct b
         | context [match ?x with _ => _ end] => destruct x
         end;
  injection H as _ <-;
  first [ reflexivity
        | intros ? ?; reflexivity
        | split; simpl; try reflexivity; try (exists []; split; reflexivity);
          try (eexists [_]; split; reflexivity) ].

Lemma external_cluster env err : keeps cluster_untouched (external env err).
Proof. unfold external. prim_tac. Qed.
Lemma external_store_but env err id : keeps (store_but id) (external env err).
Proof. unfold external. prim_tac. Qed.
Lemma external_store env err : keeps store_untouched (external env err).
Proof. unfold external. prim_tac. Qed.
Lemma external_draws env err : keeps same_draws (external env err).
Proof. unfold external. prim_tac. Qed.
Lemma external_db env err : keeps db_untouched (external env err).
Proof. unfold external. prim_tac. Qed.

Lemma log_cluster ev : cluster_event ev = false -> keeps cluster_untouched (log ev).
Proof.
  intros Hev w r w' [= _ <-]. split; simpl; auto.
  exists [ev]. simpl. rewrite Hev. auto.
Qed.
Lemma log_store_but ev id : keeps (store_but id) (log ev).
Proof. unfold log. prim_tac. Qed.
Lemma log_store ev : is_put ev = false -> keeps store_untouched (log ev).
Proof.
  intros Hev w r w' [= _ <-]. split; simpl; auto.
  exists [ev]. simpl. rewrite Hev. auto.
Qed.
Lemma log_draws ev : keeps same_draws (log ev).
Proof. unfold log. prim_tac. Qed.
Lemma log_db ev : is_db ev = false -> keeps db_untouched (log ev).
Proof.
  intros Hev w r w' [= _ <-]. split; simpl; auto.
  exists [ev]. simpl. rewrite Hev. auto.
Qed.

Lemma set_secret_store_cluster f : keeps cluster_untouched (set_secret_store f).
Proof. unfold set_secret_store. prim_tac. Qed.
Lemma set_secret_store_but id p : keeps (store_but id) (set_secret_store (insert id p)).
Proof.
  intros w r w' [= _ <-] id' Hne. simpl. apply lookup_insert_ne. congruence.
Qed.
Lemma set_secret_store_draws f : keeps same_draws (set_secret_store f).
Proof. unfold set_secret_store. prim_tac. Qed.
Lemma set_secret_store_db f : keeps db_untouched (set_secret_store f).
Proof. unfold set_secret_store. prim_tac. Qed.

Lemma set_mysql_users_cluster f : keeps cluster_untouched (set_mysql_users f).
Proof. unfold set_mysql_users. prim_tac. Qed.
Lemma set_mysql_users_store_but f id : keeps (store_but id) (set_mysql_users f).
Proof. unfold set_mysql_users. prim_tac. Qed.
Lemma set_mysql_users_store f : keeps store_untouched (set_mysql_users f).
Proof. unfold set_mysql_users. prim_tac. Qed.
Lemma set_mysql_users_draws f : keeps same_draws (set_mysql_users f).
Proof. unfold set_mysql_users. prim_tac. Qed.

Lemma set_sqlconf_php_store_but c id : keeps (store_but id) (set_sqlconf_php c).
Proof. unfold set_sqlconf_php. prim_tac. Qed.
Lemma set_sqlconf_php_store c : keeps store_untouched (set_sqlconf_php c).
Proof. unfold set_sqlconf_php. prim_tac. Qed.
Lemma set_sqlconf_php_draws c : keeps same_draws (set_sqlconf_php c).
Proof. unfold set_sqlconf_php. prim_tac. Qed.
Lemma set_sqlconf_php_db c : keeps db_untouched (set_sqlconf_php c).
Proof. unfold set_sqlconf_php. prim_tac. Qed.

Lemma set_k8s_secret_data_store_but f id : keeps (store_but id) (set_k8s_secret_data f).
Proof. unfold set_k8s_secret_data. prim_tac. Qed.
Lemma set_k8s_secret_data_store f : keeps store_untouched (set_k8s_secret_data f).
Proof. unfold set_k8s_secret_data. prim_tac. Qed.
Lemma set_k8s_secret_data_draws f : keeps same_draws (set_k8s_secret_data f).
Proof. unfold set_k8s_secret_data. prim_tac. Qed.
Lemma set_k8s_secret_data_db f : keeps db_untouched (set_k8s_secret_data f).
Proof. unfold set_k8s_secret_data. prim_tac. Qed.

Lemma secrets_choice_cluster env s : keeps cluster_untouched (secrets_choice env s).
Proof. unfold secrets_choice. prim_tac. Qed.
Lemma secrets_choice_store_but env s id : keeps (store_but id) (secrets_choice env s).
Proof. unfold secrets_choice. prim_tac. Qed.
Lemma secrets_choice_store env s : keeps store_untouched (secrets_choice env s).
Proof. unfold secrets_choice. prim_tac. Qed.
Lemma secrets_choice_db env s : keeps db_untouched (secrets_choice env s).
Proof. unfold secrets_choice. prim_tac. Qed.

#[export] Hint Resolve external_cluster external_store_but external_store
  external_draws external_db log_cluster log_store_but log_store log_draws log_db
  set_secret_store_cluster set_secret_store_but set_secret_store_draws
  set_secret_store_db set_mysql_users_cluster set_mysql_users_store_but
  set_mysql_users_store set_mysql_users_draws set_sqlconf_php_store_but
  set_sqlconf_php_store set_sqlconf_php_draws set_sqlconf_php_db
  set_k8s_secret_data_store_but set_k8s_secret_data_store
  set_k8s_secret_data_draws set_k8s_secret_data_db secrets_choice_cluster
  secrets_choice_store_but secrets_choice_store secrets_choice_db : keeps_db.

Ltac keeps_unfold f := unfold f; keeps_tac.

Section Frames.
Context (env : Env) (ctx : RotationContext).

Lemma get_secret_cluster id : keeps cluster_untouched (get_secret env id).
Proof. keeps_unfold get_secret. Qed.
Lemma get_secret_store id : keeps store_untouched (get_secret env id).
Proof. keeps_unfold get_secret. Qed.
Lemma get_secret_store_but id id' : keeps (store_but id') (get_secret env id).
Proof. keeps_unfold get_secret. Qed.
Lemma get_secret_draws id : keeps same_draws (get_secret env id).
Proof. keeps_unfold get_secret. Qed.
Lemma get_secret_db id : keeps db_untouched (get_secret env id).
Proof. keeps_unfold get_secret. Qed.

Lemma put_payload_cluster id p : keeps cluster_untouched (put_payload env id p).
Proof. keeps_unfold put_payload. Qed.
Lemma put_payload_store_but id p : keeps (store_but id) (put_payload env id p).
Proof. keeps_unfold put_payload. Qed.
Lemma put_payload_draws id p : keeps same_draws (put_payload env id p).
Proof. keeps_unfold put_payload. Qed.
Lemma put_payload_db id p : keeps db_untouched (put_payload env id p).
Proof. keeps_unfold put_payload. Qed.

Lemma read_text_cluster : keeps cluster_untouched (read_text env).
Proof. keeps_unfold read_text. Qed.
Lemma read_text_store : keeps store_untouched (read_text env).
Proof. keeps_unfold read_text. Qed.
Lemma read_text_store_but id : keeps (store_but id) (read_text env).
Proof. keeps_unfold read_text. Qed.
Lemma read_text_draws : keeps same_draws (read_text env).
Proof. keeps_unfold read_text. Qed.
Lemma read_text_db : keeps db_untouched (read_text env).
Proof. keeps_unfold read_text. Qed.

Lemma pymysql_connect_cluster u p : keeps cluster_untouched (pymysql_connect env u p).
Proof. keeps_unfold pymysql_connect. Qed.
Lemma pymysql_connect_store u p : keeps store_untouched (pymysql_connect env u p).
Proof. keeps_unfold pymysql_connect. Qed.
Lemma pymysql_connect_store_but u p id : keeps (store_but id) (pymysql_connect env u p).
Proof. keeps_unfold pymysql_connect. Qed.
Lemma pymysql_connect_draws u p : keeps same_draws (pymysql_connect env u p).
Proof. keeps_unfold pymysql_connect. Qed.

Lemma execute_cluster s : keeps cluster_untouched (execute env s).
Proof. keeps_unfold execute. Qed.
Lemma execute_store s : keeps store_untouched (execute env s).
Proof. keeps_unfold execute. Qed.
Lemma execute_store_but s id : keeps (store_but id) (execute env s).
Proof. keeps_unfold execute. Qed.
Lemma execute_draws s : keeps same_draws (execute env s).
Proof. keeps_unfold execute. Qed.

Hint Resolve get_secret_cluster get_secret_store get_secret_store_but
  get_secret_draws get_secret_db put_payload_cluster put_payload_store_but
  put_payload_draws put_payload_db read_text_cluster read_text_store
  read_text_store_but read_text_draws read_text_db pymysql_connect_cluster
  pymysql_connect_store pymysql_connect_store_but pymysql_connect_draws
  execute_cluster execute_store execute_store_but execute_draws : keeps_db.

Lemma validate_rds_connection_cluster s :
  keeps cluster_untouched (validate_rds_connection env s).
Proof. keeps_unfold validate_rds_connection. Qed.
Lemma validate_rds_connection_store s :
  keeps store_untouched (validate_rds_connection env s).
Proof. keeps_unfold validate_rds_connection. Qed.
Lemma validate_rds_connection_store_but s id :
  keeps (store_but id) (validate_rds_connection env s).
Proof. keeps_unfold validate_rds_connection. Qed.
Lemma validate_rds_connection_draws s :
  keeps same_draws (validate_rds_connection env s).
Proof. keeps_unfold validate_rds_connection. Qed.

Lemma validate_openemr_health_cluster u :
  keeps cluster_untouched (validate_openemr_health env u).
Proof. keeps_unfold validate_openemr_health. Qed.
Lemma validate_openemr_health_store u :
  keeps store_untouched (validate_openemr_health env u).
Proof. keeps_unfold validate_openemr_health. Qed.
Lemma validate_openemr_health_store_but u id :
  keeps (store_but id) (validate_openemr_health env u).
Proof. keeps_unfold validate_openemr_health. Qed.
Lemma validate_openemr_health_draws u :
  keeps same_draws (validate_openemr_health env u).
Proof. keeps_unfold validate_openemr_health. Qed.

Lemma repeat_choice_cluster n : keeps cluster_untouched (repeat_choice env n).
Proof. induction n; simpl; keeps_tac. Qed.
Lemma repeat_choice_store n : keeps store_untouched (repeat_choice env n).
Proof. induction n; simpl; keeps_tac. Qed.
Lemma repeat_choice_store_but n id : keeps (store_but id) (repeat_choice env n).
Proof. induction n; simpl; keeps_tac. Qed.
Lemma repeat_choice_db n : keeps db_untouched (repeat_choice env n).
Proof. induction n; simpl; keeps_tac. Qed.

Hint Resolve validate_rds_connection_cluster validate_rds_connection_store
  validate_rds_connection_store_but validate_rds_connection_draws
  validate_openemr_health_cluster validate_openemr_health_store
  validate_openemr_health_store_but validate_openemr_health_draws
  repeat_choice_cluster repeat_choice_store repeat_choice_store_but
  repeat_choice_db : keeps_db.

Lemma generate_password_cluster n : keeps cluster_untouched (generate_password env n).
Proof. keeps_unfold generate_password. Qed.
Lemma generate_password_store n : keeps store_untouched (generate_password env n).
Proof. keeps_unfold generate_password. Qed.
Lemma generate_password_store_but n id : keeps (store_but id) (generate_password env n).
Proof. keeps_unfold generate_password. Qed.
Lemma generate_password_db n : keeps db_untouched (generate_password env n).
Proof. keeps_unfold generate_password. Qed.

Lemma connection_opens_cluster u p : keeps cluster_untouched (connection_opens env u p).
Proof. keeps_unfold connection_opens. Qed.
Lemma connection_opens_store u p : keeps store_untouched (connection_opens env u p).
Proof. keeps_unfold connection_opens. Qed.
Lemma connection_opens_store_but u p id : keeps (store_but id) (connection_opens env u p).
Proof. keeps_unfold connection_opens. Qed.
Lemma connection_opens_draws u p : keeps same_draws (connection_opens env u p).
Proof. keeps_unfold connection_opens. Qed.

Hint Resolve connection_opens_cluster connection_opens_store
  connection_opens_store_but connection_opens_draws : keeps_db.

Lemma _load_admin_secret_cluster : keeps cluster_untouched (_load_admin_secret env ctx).
Proof. unfold _load_admin_secret, _load_admin_secret_try. keeps_tac. Qed.
Lemma _load_admin_secret_store_but :
  keeps (store_but (rds_admin_secret_id ctx)) (_load_admin_secret env ctx).
Proof. unfold _load_admin_secret, _load_admin_secret_try. keeps_tac. Qed.
Lemma _load_admin_secret_draws : keeps same_draws (_load_admin_secret env ctx).
Proof. unfold _load_admin_secret, _load_admin_secret_try. keeps_tac. Qed.

Hint Resolve generate_password_cluster generate_password_store
  generate_password_store_but generate_password_db _load_admin_secret_cluster
  _load_admin_secret_store_but _load_admin_secret_draws : keeps_db.

Lemma _upsert_openemr_db_user_cluster s :
  keeps cluster_untouched (_upsert_openemr_db_user env ctx s).
Proof. keeps_unfold _upsert_openemr_db_user. Qed.
Lemma _upsert_openemr_db_user_store_but s :
  keeps (store_but (rds_admin_secret_id ctx)) (_upsert_openemr_db_user env ctx s).
Proof. keeps_unfold _upsert_openemr_db_user. Qed.
Lemma _upsert_openemr_db_user_draws s :
  keeps same_draws (_upsert_openemr_db_user env ctx s).
Proof. keeps_unfold _upsert_openemr_db_user. Qed.

Lemma _rotate_admin_password_cluster :
  keeps cluster_untouched (_rotate_admin_password env ctx).
Proof. keeps_unfold _rotate_admin_password. Qed.
Lemma _rotate_admin_password_store_but :
  keeps (store_but (rds_admin_secret_id ctx)) (_rotate_admin_password env ctx).
Proof. keeps_unfold _rotate_admin_password. Qed.

Hint Resolve _upsert_openemr_db_user_cluster _upsert_openemr_db_user_store_but
  _upsert_openemr_db_user_draws _rotate_admin_password_cluster
  _rotate_admin_password_store_but : keeps_db.

Lemma _ensure_slot_initialized_cluster s h d :
  keeps cluster_untouched (_ensure_slot_initialized env s h d).
Proof. keeps_unfold _ensure_slot_initialized. Qed.
Lemma _ensure_slot_initialized_store s h d :
  keeps store_untouched (_ensure_slot_initialized env s h d).
Proof. keeps_unfold _ensure_slot_initialized. Qed.
Lemma _ensure_slot_initialized_db s h d :
  keeps db_untouched (_ensure_slot_initialized env s h d).
Proof. keeps_unfold _ensure_slot_initialized. Qed.

Lemma _rotate_old_slot_cluster a b :
  keeps cluster_untouched (_rotate_old_slot env ctx a b).
Proof. keeps_unfold _rotate_old_slot. Qed.

Hint Resolve _ensure_slot_initialized_cluster _ensure_slot_initialized_store
  _ensure_slot_initialized_db _rotate_old_slot_cluster : keeps_db.

Lemma _bootstrap_slots_from_sqlconf_cluster c s a b :
  keeps cluster_untouched (_bootstrap_slots_from_sqlconf env ctx c s a b).
Proof. keeps_unfold _bootstrap_slots_from_sqlconf. Qed.

Lemma _reconcile_active_slot_to_standby_cluster s a b :
  keeps cluster_untouched (_reconcile_active_slot_to_standby env ctx s a b).
Proof. keeps_unfold _reconcile_active_slot_to_standby. Qed.

Lemma atomic_write_store c : keeps store_untouched (atomic_write env c).
Proof. keeps_unfold atomic_write. Qed.
Lemma update_k8s_db_secret_store s : keeps store_untouched (update_k8s_db_secret env s).
Proof. keeps_unfold update_k8s_db_secret. Qed.
Lemma rollout_restart_deployment_store :
  keeps store_untouched (rollout_restart_deployment env ctx).
Proof. unfold rollout_restart_deployment, _wait_for_rollout. keeps_tac. Qed.

Hint Resolve atomic_write_store update_k8s_db_secret_store
  rollout_restart_deployment_store : keeps_db.

Lemma _validate_runtime_store s : keeps store_untouched (_validate_runtime env ctx s).
Proof. keeps_unfold _validate_runtime. Qed.

Hint Resolve _validate_runtime_store : keeps_db.

Lemma _rollback_store c s : keeps store_untouched (_rollback env ctx c s).
Proof. keeps_unfold _rollback. Qed.
End Frames.

#[export] Hint Resolve get_secret_cluster get_secret_store get_secret_store_but
  get_secret_draws get_secret_db put_payload_cluster put_payload_store_but
  put_payload_draws put_payload_db read_text_cluster read_text_store
  read_text_store_but read_text_draws read_text_db pymysql_connect_cluster
  pymysql_connect_store pymysql_connect_store_but pymysql_connect_draws
  execute_cluster execute_store execute_store_but execute_draws
  validate_rds_connection_cluster validate_rds_connection_store
  validate_rds_connection_store_but validate_rds_connection_draws
  validate_openemr_health_cluster validate_openemr_health_store
  validate_openemr_health_store_but validate_openemr_health_draws
  generate_password_cluster generate_password_store
  generate_password_store_but generate_password_db _load_admin_secret_cluster
  _load_admin_secret_store_but _load_admin_secret_draws
  _upsert_openemr_db_user_cluster _upsert_openemr_db_user_store_but
  _upsert_openemr_db_user_draws _rotate_admin_password_cluster
  _rotate_admin_password_store_but _ensure_slot_initialized_cluster
  _ensure_slot_initialized_store _ensure_slot_initialized_db
  _rotate_old_slot_cluster _bootstrap_slots_from_sqlconf_cluster
  _reconcile_active_slot_to_standby_cluster atomic_write_store
  update_k8s_db_secret_store rollout_restart_deployment_store
  _validate_runtime_store _rollback_store : keeps_db.

(** ** Running a computation along known steps *)

Lemma bind_ret {A B} (a : A) (k : A -> M B) w : bind (ret a) k w = k a w.
Proof. reflexivity. Qed.

Lemma bind_lift_ok {A B} (x : exn + A) (k : A -> M B) w a :
  x = inr a -> bind (lift x) k w = k a w.
Proof. intros ->. reflexivity. Qed.

Lemma bind_lift_err {A B} (x : exn + A) (k : A -> M B) w e :
  x = inl e -> bind (lift x) k w = (inl e, w).
Proof. intros ->. reflexivity. Qed.

Lemma lift_ok {A} (x : exn + A) w a : x = inr a -> lift x w = (inr a, w).
Proof. intros ->. reflexivity. Qed.

Lemma bind_read {A B} (f : World -> A) (k : A -> M B) w :
  bind (read f) k w = k (f w) w.
Proof. reflexivity. Qed.

Lemma try_ok {A} (m : M A) h w a w' :
  m w = (inr a, w') -> try_except m h w = (inr a, w').
Proof. unfold try_except. intros ->. reflexivity. Qed.

Lemma try_err {A} (m : M A) h w e w' :
  m w = (inl e, w') -> try_except m h w = h e w'.
Proof. unfold try_except. intros ->. reflexivity. Qed.

Lemma for_return_some {A R} (x : A) l (body : A -> M (option R)) w v w1 :
  body x w = (inr (Some v), w1) -> for_return (x :: l) body w = (inr (Some v), w1).
Proof. intros H. simpl. unfold bind. rewrite H. reflexivity. Qed.

Lemma for_return_none {A R} (x : A) l (body : A -> M (option R)) w w1 :
  body x w = (inr None, w1) -> for_return (x :: l) body w = for_return l body w1.
Proof. intros H. simpl. unfold bind. rewrite H. reflexivity. Qed.

Ltac mrun :=
  repeat first
    [ progress (cbv beta iota)
    | rewrite bind_ret
    | rewrite bind_read
    | erewrite bind_lift_ok by eassumption
    | erewrite bind_step by eassumption
    | erewrite bind_fail by eassumption ].

(** ** _load_admin_secret *)

Definition admin_unusable : exn :=
  RuntimeError
    ("Admin credentials in RDS admin secret are invalid and no fallback "
     +:+ "password was found. Reset the RDS master password manually.").

Section LoadAdmin.
Context (env : Env) (ctx : RotationContext).

(** A connection as [user] with [pw], tried in [w], opens. *)
Definition opens (user pw : sval) (w w' : World) : Prop :=
  pymysql_connect env user pw w = (inr tt, w').

(** The connection is refused. *)
Definition refused (user pw : sval) (w w' : World) : Prop :=
  exists n, pymysql_connect env user pw w = (inl (OperationalError n), w').

(** The slot has the admin user name and its password opens a
    connection. *)
Definition slot_opens (user : sval) (slot : gmap string sval) (pw : sval)
    (w w' : World) : Prop :=
  slot !! "username" = Some user /\ slot !! "password" = Some pw
  /\ opens user pw w w'.

(** The slot has another user name, or its password is refused. *)
Definition slot_fails (user : sval) (slot : gmap string sval)
    (w w' : World) : Prop :=
  (slot !! "username" <> Some user /\ w' = w)
  \/ (slot !! "username" = Some user
      /\ exists pw, slot !! "password" = Some pw /\ refused user pw w w').

(** The admin record with a password taken from a slot. *)
Definition adopt (admin : gmap string jval) (pw : sval) : gmap string jval :=
  <["password" := JVal pw]> admin.

Lemma put_payload_stored id p w w' :
  put_payload env id p w = (inr tt, w') ->
  secret_store w' = <[id := p]> (secret_store w)
  /\ trace w' = EvPutSecret id p :: trace w.
Proof.
  unfold put_payload, bind, external, set_secret_store, log.
  destruct (fault env (calls w)); [discriminate|].
  intros [= <-]. simpl. auto.
Qed.

Lemma connection_opens_true user pw w w' :
  opens user pw w w' -> connection_opens env (inr user) (inr pw) w = (inr true, w').
Proof.
  intros H. unfold connection_opens. apply try_ok.
  rewrite bind_lift_ok with (a := user) by reflexivity.
  rewrite bind_lift_ok with (a := pw) by reflexivity.
  unfold opens in H. erewrite bind_step by eassumption. reflexivity.
Qed.

Lemma connection_opens_false user pw w w' :
  refused user pw w w' -> connection_opens env (inr user) (inr pw) w = (inr false, w').
Proof.
  intros [n H]. unfold connection_opens. erewrite try_err.
  2:{ rewrite bind_lift_ok with (a := user) by reflexivity.
      rewrite bind_lift_ok with (a := pw) by reflexivity.
      erewrite bind_fail by eassumption. reflexivity. }
  reflexivity.
Qed.

Lemma try_slot_opens admin rds_state name s user pw w w1 w2 :
  rds_state !! name = Some (JDict s) ->
  admin !! "username" = Some (JVal user) ->
  slot_opens user s pw w w1 ->
  put_payload env (rds_admin_secret_id ctx) (adopt admin pw) w1 = (inr tt, w2) ->
  _load_admin_secret_try env ctx admin rds_state name w
  = (inr (Some (adopt admin pw)), w2).
Proof.
  intros Hs Hu (Hsu & Hsp & Hopen) Hput.
  unfold _load_admin_secret_try, slot, admin_getitem.
  rewrite Hs, Hu. rewrite !bind_lift_ok with (a := s) by reflexivity.
  rewrite bind_lift_ok with (a := user) by reflexivity.
  destruct (decide (s !! "username" = Some user)); [|contradiction].
  unfold getitem. rewrite Hsp.
  erewrite bind_step by (apply connection_opens_true; eassumption).
  cbv iota. rewrite bind_lift_ok with (a := pw) by reflexivity.
  fold (adopt admin pw). erewrite bind_step by eassumption. reflexivity.
Qed.

Lemma try_slot_fails admin rds_state name s user w w1 :
  rds_state !! name = Some (JDict s) ->
  admin !! "username" = Some (JVal user) ->
  slot_fails user s w w1 ->
  _load_admin_secret_try env ctx admin rds_state name w = (inr None, w1).
Proof.
  intros Hs Hu Hf. unfold _load_admin_secret_try, slot, admin_getitem.
  rewrite Hs, Hu. rewrite !bind_lift_ok with (a := s) by reflexivity.
  rewrite bind_lift_ok with (a := user) by reflexivity.
  destruct Hf as [[Hne ->] | (Hsu & pw & Hsp & Href)].
  - destruct (decide (s !! "username" = Some user)); [contradiction|].
    reflexivity.
  - destruct (decide (s !! "username" = Some user)); [|contradiction].
    unfold getitem. rewrite Hsp.
    erewrite bind_step by (apply connection_opens_false; eassumption).
    reflexivity.
Qed.

Lemma slot_fails_store user s w w' : slot_fails user s w w' -> store_untouched w w'.
Proof.
  intros [[_ ->] | (_ & pw & _ & n & H)]; [reflexivity|].
  eapply pymysql_connect_store; eauto.
Qed.

End LoadAdmin.

(** ** A test bench: one database, two secrets, one configuration file *)

Definition bench_slot (user password dbname : string) : gmap string sval :=
  <["username" := SStr user]> (<["password" := SStr password]>
  (<["host" := SStr "db.example.com"]> (<["port" := SStr "3306"]>
  (<["dbname" := SStr dbname]> ∅)))).

Definition bench_slots (active : string) (slot_a slot_b : gmap string sval)
    : gmap string jval :=
  <["active_slot" := JVal (SStr active)]> (<["A" := JDict slot_a]>
  (<["B" := JDict slot_b]> ∅)).

Definition bench_admin (password : string) : gmap string jval :=
  <["host" := JVal (SStr "db.example.com")]> (<["port" := JVal (SInt 3306)]>
  (<["username" := JVal (SStr "root")]> (<["password" := JVal (SStr password)]> ∅))).

Definition line (s : string) : string := s +:+ String newline EmptyString.

(** A [sqlconf.php] with the five assignments. *)
Definition bench_sqlconf (user password : string) : string :=
  line "<?php" +:+ line "$host = 'db.example.com';" +:+ line "$port = '3306';"
  +:+ line ("$login = '" +:+ user +:+ "';")
  +:+ line ("$pass  = '" +:+ password +:+ "';")
  +:+ line "$dbase = 'openemr';".

Definition bench_world (slots admin : gmap string jval) (sqlconf : string)
    (users : gmap string string) : World :=
  {| secret_store := <["rds" := slots]> (<["admin" := admin]> ∅);
     sqlconf_php := Some sqlconf;
     k8s_secret_data := ∅;
     mysql_users := users;
     calls := 0; draws := 0; trace := [] |}.

Definition bench_ctx (dry : bool) : RotationContext :=
  {| region := "us-east-1"; rds_slots_secret_id := "rds";
     rds_admin_secret_id := "admin"; sites_mount_root := "/mnt/sites";
     k8s_namespace := "openemr"; k8s_deployment_name := "openemr";
     k8s_secret_name := "openemr-db-credentials";
     openemr_health_url := None; dry_run := dry |}.

(** An environment where every call goes through and the random source
    counts up. *)
Definition calm : Env := {| rand := fun i => i; fault := fun _ => false |}.

(** The admin secret is stale; slot A carries the admin account with
    the password the database has. *)
Definition stale_admin_world : World :=
  bench_world
    (bench_slots "A" (bench_slot "root" "live" "openemr")
                     (bench_slot "openemr_b" "pwB" "openemr"))
    (bench_admin "stale") (bench_sqlconf "root" "live")
    (<["root" := "live"]> ∅).


(** ** _upsert_openemr_db_user and the database name *)

(** Every event added satisfies [ok]. *)
Definition trace_adds (ok : event -> bool) (w w' : World) : Prop :=
  exists evs, trace w' = evs ++ trace w /\ forallb ok evs = true.

#[global] Instance trace_adds_preorder ok : PreOrder (trace_adds ok).
Proof.
  split.
  - intros w. exists []. auto.
  - intros w1 w2 w3 (e1 & T1 & A1) (e2 & T2 & A2).
    exists (e2 ++ e1). rewrite T2, T1, app_assoc. split; [reflexivity|].
    rewrite forallb_app, A1, A2. reflexivity.
Qed.

(** A [GRANT] names a database only of the supported form. *)
Definition grant_ok (ev : event) : bool :=
  match ev with
  | EvExecute (GrantAllPrivileges db_name _) => dbname_supported db_name
  | _ => true
  end.

Lemma external_adds ok env err : keeps (trace_adds ok) (external env err).
Proof.
  intros w r w' H. unfold external in H.
  destruct (fault env (calls w)); injection H as _ <-; exists []; auto.
Qed.

Lemma log_adds ok ev : ok ev = true -> keeps (trace_adds ok) (log ev).
Proof. intros Hev w r w' [= _ <-]. exists [ev]. simpl. rewrite Hev. auto. Qed.

Lemma set_secret_store_adds ok f : keeps (trace_adds ok) (set_secret_store f).
Proof. intros w r w' [= _ <-]. exists []. auto. Qed.

Lemma set_mysql_users_adds ok f : keeps (trace_adds ok) (set_mysql_users f).
Proof. intros w r w' [= _ <-]. exists []. auto. Qed.

#[export] Hint Resolve external_adds log_adds set_secret_store_adds
  set_mysql_users_adds : keeps_db.

Lemma execute_adds ok env stmt :
  ok (EvExecute stmt) = true -> keeps (trace_adds ok) (execute env stmt).
Proof. intros H. unfold execute. keeps_tac. Qed.

Lemma _load_admin_secret_grants env ctx :
  keeps (trace_adds grant_ok) (_load_admin_secret env ctx).
Proof.
  unfold _load_admin_secret, _load_admin_secret_try, connection_opens,
    get_secret, put_payload, pymysql_connect.
  keeps_tac.
Qed.

Lemma _upsert_openemr_db_user_grants env ctx slot :
  keeps (trace_adds grant_ok) (_upsert_openemr_db_user env ctx slot).
Proof.
  unfold _upsert_openemr_db_user.
  apply keeps_bind; [typeclasses eauto | apply _load_admin_secret_grants | intros admin].
  do 7 (apply keeps_bind; [typeclasses eauto | keeps_tac | intros ?]).
  apply keeps_bind; [typeclasses eauto | keeps_tac | intros db_name].
  destruct (dbname_supported db_name) eqn:Hdb; simpl; [|keeps_tac].
  apply keeps_bind;
    [typeclasses eauto | unfold pymysql_connect; keeps_tac | intros _].
  do 2 (apply keeps_bind; [typeclasses eauto | keeps_tac | intros ?]).
  do 3 (apply keeps_bind;
          [typeclasses eauto | apply execute_adds; simpl; auto | intros _]).
  apply execute_adds. reflexivity.
Qed.

(** What [_load_admin_secret] returns can be used to connect. *)
Lemma connection_opens_true_inv env user password w w' :
  connection_opens env user password w = (inr true, w') ->
  exists u p, user = inr u /\ password = inr p.
Proof.
  unfold connection_opens, try_except, bind, lift.
  destruct user as [e|u]; [destruct e; intros [=]|].
  destruct password as [e|p]; [destruct e; intros [=]|]. eauto.
Qed.

Lemma admin_get_adopt admin key dflt pw :
  key <> "password" ->
  admin_get (<["password" := JVal pw]> admin) key dflt = admin_get admin key dflt.
Proof. intros H. unfold admin_get. rewrite lookup_insert_ne by congruence. reflexivity. Qed.

Lemma admin_getitem_adopt admin key pw :
  key <> "password" ->
  admin_getitem (<["password" := JVal pw]> admin) key = admin_getitem admin key.
Proof. intros H. unfold admin_getitem. rewrite lookup_insert_ne by congruence. reflexivity. Qed.

Lemma _load_admin_secret_try_some env ctx admin rds_state name admin' w w' :
  _load_admin_secret_try env ctx admin rds_state name w = (inr (Some admin'), w') ->
  exists pw, admin' = <["password" := JVal pw]> admin.
Proof.
  unfold _load_admin_secret_try. intros H.
  apply bind_ok in H as (s & w1 & _ & H).
  apply bind_ok in H as (u & w2 & _ & H).
  destruct (decide (s !! "username" = Some u)); [|discriminate].
  apply bind_ok in H as ([|] & w3 & _ & H); [|discriminate].
  apply bind_ok in H as (pw & w4 & _ & H).
  apply bind_ok in H as (? & w5 & _ & H).
  injection H as <- _. eauto.
Qed.

Lemma for_return_some_inv {A R} (l : list A) (body : A -> M (option R)) w v w' :
  for_return l body w = (inr (Some v), w') ->
  exists x w1 w2, body x w1 = (inr (Some v), w2).
Proof.
  revert w. induction l as [|x l IH]; intros w H; simpl in H; [discriminate|].
  apply bind_ok in H as ([v'|] & w1 & Hb & H).
  - injection H as <- <-. eauto.
  - eauto.
Qed.

Lemma _load_admin_secret_usable env ctx w admin w' :
  _load_admin_secret env ctx w = (inr admin, w') ->
  (exists h, admin_get admin "host" (SStr "") = inr h)
  /\ (exists pv p, admin_get admin "port" (SInt 3306) = inr pv /\ py_int pv = inr p)
  /\ (exists u, admin_getitem admin "username" = inr u)
  /\ (exists p, admin_getitem admin "password" = inr p).
Proof.
  unfold _load_admin_secret. intros H.
  apply bind_ok in H as (adm & w1 & _ & H).
  apply bind_ok in H as (h & w2 & Hh & H). injection Hh as Hh _.
  apply bind_ok in H as (pv & w3 & Hpv & H). injection Hpv as Hpv _.
  apply bind_ok in H as (p & w4 & Hp & H). injection Hp as Hp _.
  apply bind_ok in H as ([|] & w5 & Hok & H).
  - injection H as <- _.
    apply connection_opens_true_inv in Hok as (u & pw & Hu & Hpw). eauto 10.
  - apply bind_ok in H as (rds & w6 & _ & H).
    apply bind_ok in H as ([adm'|] & w7 & Hfound & H); [|discriminate].
    injection H as <- _.
    apply for_return_some_inv in Hfound as (x & wa & wb & Hx).
    assert (Hu : exists u, admin_getitem adm "username" = inr u).
    { unfold _load_admin_secret_try in Hx.
      apply bind_ok in Hx as (s & w8 & _ & Hx).
      apply bind_ok in Hx as (u & w9 & Hu & _). injection Hu as Hu _. eauto. }
    apply _load_admin_secret_try_some in Hx as (pw & ->).
    rewrite !admin_get_adopt, admin_getitem_adopt by discriminate.
    repeat split; eauto.
    exists pw. unfold admin_getitem. rewrite lookup_insert_eq. reflexivity.
Qed.

(** [dbname_supported] spelled out: some character is not an underscore
    and every character is an underscore or alphanumeric. *)
Lemma dbname_supported_iff db :
  dbname_supported db = true <->
  (exists c, In c (list_ascii_of_string db) /\ c <> "_"%char)
  /\ (forall c, In c (list_ascii_of_string db) ->
        c = "_"%char \/ py_isalnum_char c = true).
Proof.
  unfold dbname_supported, py_isalnum.
  set (l := list_ascii_of_string db).
  destruct (filter (fun c => c <> "_"%char) l) as [|c0 l0] eqn:Hf.
  - split; [discriminate|]. intros [(c & Hin & Hne) _].
    apply list_elem_of_In in Hin.
    exfalso. eapply (filter_nil_not_elem_of _ _ c Hf); assumption.
  - rewrite <- Hf. split.
    + intros Hall. split.
      * exists c0. assert (H0 : c0 ∈ filter (fun c => c <> "_"%char) l)
          by (rewrite Hf; left).
        apply list_elem_of_filter in H0 as [Hne Hin].
        split; [apply list_elem_of_In|]; assumption.
      * intros c Hin. destruct (decide (c = "_"%char)) as [|Hne]; [auto|right].
        rewrite forallb_forall in Hall. apply Hall.
        apply list_elem_of_In, list_elem_of_filter.
        split; [assumption | apply list_elem_of_In; assumption].
    + intros [_ Hall]. apply forallb_forall. intros c Hin.
      apply list_elem_of_In, list_elem_of_filter in Hin as [Hne Hin].
      destruct (Hall c) as [->|]; [apply list_elem_of_In; assumption | | assumption].
      contradiction.
Qed.

(** C10, as amended.  A slot whose database name is not of the supported
    form (after the underscores are taken out, a non-empty text of
    alphanumeric characters) makes [_upsert_openemr_db_user] raise, and
    the world it leaves is the one [_load_admin_secret] left: nothing is
    done after the admin credential is loaded, so the provisioning
    connection is not opened and no statement is sent.  The error is the
    [ValueError] of the check once the admin credential is loaded and
    the slot has a host.  In any run, a [GRANT] that is sent names a
    database of the supported form. *)
Theorem upsert_rejects_unsupported_dbname env ctx :
  (forall slot w db,
     slot !! "dbname" = Some (SStr db) ->
     dbname_supported db = false ->
     (exists e, _upsert_openemr_db_user env ctx slot w
                = (inl e, snd (_load_admin_secret env ctx w)))
     /\ (forall admin,
           fst (_load_admin_secret env ctx w) = inr admin ->
           is_Some (slot !! "host") ->
           _upsert_openemr_db_user env ctx slot w
           = (inl (ValueError ("Unsupported dbname for rotation: " +:+ db)),
              snd (_load_admin_secret env ctx w))))
  /\ (forall slot w db_name user,
        In (EvExecute (GrantAllPrivileges db_name user))
           (trace (snd (_upsert_openemr_db_user env ctx slot w))) ->
        In (EvExecute (GrantAllPrivileges db_name user)) (trace w)
        \/ dbname_supported db_name = true).
Proof.
  split.
  - intros slot w db Hdb Hbad.
    assert (Hmain : forall admin w1,
      _load_admin_secret env ctx w = (inr admin, w1) ->
      (exists e, _upsert_openemr_db_user env ctx slot w = (inl e, w1))
      /\ (is_Some (slot !! "host") ->
          _upsert_openemr_db_user env ctx slot w
          = (inl (ValueError ("Unsupported dbname for rotation: " +:+ db)), w1))).
    { intros admin w1 Hload.
      destruct (_load_admin_secret_usable _ _ _ _ _ Hload)
        as ((h & Hh) & (pv & p & Hpv & Hp) & (u & Hu) & (pw & Hpw)).
      assert (Hget : getitem slot "dbname" = inr (SStr db))
        by (unfold getitem; rewrite Hdb; reflexivity).
      unfold _upsert_openemr_db_user. mrun.
      destruct (truthy h).
      - mrun. rewrite Hbad. split; [eexists|intros _]; reflexivity.
      - destruct (slot !! "host") as [v|] eqn:Hhost.
        + assert (Hgh : getitem slot "host" = inr v)
            by (unfold getitem; rewrite Hhost; reflexivity).
          mrun. rewrite Hbad. split; [eexists|intros _]; reflexivity.
        + assert (Hgh : getitem slot "host" = inl (KeyError "host"))
            by (unfold getitem; rewrite Hhost; reflexivity).
          erewrite bind_lift_err by eassumption.
          split; [eexists; reflexivity | intros [? [=]]]. }
    destruct (_load_admin_secret env ctx w) as [[e|admin] w1] eqn:Hload; simpl.
    + split.
      * exists e. unfold _upsert_openemr_db_user.
        erewrite bind_fail by eassumption. reflexivity.
      * intros admin [=].
    + destruct (Hmain admin w1 eq_refl) as [H1 H2]. split; [exact H1|].
      intros admin' _ Hhost. auto.
  - intros slot w db_name user Hin.
    destruct (_upsert_openemr_db_user env ctx slot w) as [r w'] eqn:E.
    apply _upsert_openemr_db_user_grants in E as (evs & Htr & Hall).
    simpl in Hin. rewrite Htr in Hin. apply in_app_or in Hin as [Hin|Hin]; [|auto].
    right. rewrite forallb_forall in Hall. apply (Hall _ Hin).
Qed.

(** A slot whose database name has a hyphen, and a world where the admin
    secret is in order. *)
Definition hyphen_slot : gmap string sval := bench_slot "openemr_a" "pwA" "open-emr".

Definition sound_world : World :=
  bench_world
    (bench_slots "A" (bench_slot "openemr_a" "pwA" "openemr")
                     (bench_slot "openemr_b" "pwB" "openemr"))
    (bench_admin "adminpw") (bench_sqlconf "openemr_a" "pwA")
    (<["root" := "adminpw"]> (<["openemr_a" := "pwA"]> ∅)).

Lemma upsert_rejects_unsupported_dbname_witness :
  _upsert_openemr_db_user calm (bench_ctx false) hyphen_slot sound_world
  = (inl (ValueError "Unsupported dbname for rotation: open-emr"),
     snd (_load_admin_secret calm (bench_ctx false) sound_world)).
Proof.
  apply (proj2 (proj1 (upsert_rejects_unsupported_dbname calm (bench_ctx false))
                  hyphen_slot sound_world "open-emr" eq_refl eq_refl)
           (bench_admin "adminpw")).
  - vm_compute. reflexivity.
  - eexists. vm_compute. reflexivity.
Defined.

(** C10 as it is stated fails: with a hyphen in the database name the
    call does raise, but by then [_load_admin_secret] has opened a
    connection to the database to try the admin password. *)
Lemma upsert_dbname_check_follows_admin_probe :
  ~ (forall env ctx slot w db,
       slot !! "dbname" = Some (SStr db) ->
       (exists c, In c (list_ascii_of_string db)
                  /\ ascii_alnum c = false /\ c <> "_"%char) ->
       exists e w',
         _upsert_openemr_db_user env ctx slot w = (inl e, w')
         /\ db_untouched w w').
Proof.
  intros H.
  destruct (H calm (bench_ctx false) hyphen_slot sound_world "open-emr" eq_refl)
    as (e & w' & Heq & [_ (evs & Htr & Hall)]).
  - exists "-"%char. repeat split; [vm_compute; tauto | discriminate].
  - vm_compute in Heq. injection Heq as _ <-. simpl in Htr.
    rewrite app_nil_r in Htr. subst evs. discriminate.
Qed.

(** ** The passwords the generator gives *)

(** The character of the [i]-th draw. *)
Definition choice_at (env : Env) (i : nat) : ascii :=
  default "a"%char (String.get (rand env i mod String.length alphabet)%nat alphabet).

(** The password of 30 characters generated from the [i]-th draw on. *)
Definition password_at (env : Env) (i : nat) : string :=
  string_of_list_ascii (map (choice_at env) (seq i 30)).

Lemma repeat_choice_at env n w :
  repeat_choice env n w = (inr (map (choice_at env) (seq (draws w) n)), drawn n w).
Proof.
  revert w. induction n as [|n IH]; intros w; simpl.
  - rewrite drawn_0. reflexivity.
  - unfold bind. destruct (secrets_choice_alphabet env w) as (c & Hc & _).
    rewrite Hc, IH, drawn_drawn. unfold ret. simpl.
    replace (n + 1)%nat with (S n) by lia. do 3 f_equal.
    unfold secrets_choice in Hc. unfold choice_at.
    destruct (String.get _ alphabet); [|discriminate]. injection Hc as <-. reflexivity.
Qed.

Lemma generate_password_at env w :
  generate_password env None w = (inr (password_at env (draws w)), drawn 30 w).
Proof.
  unfold generate_password, bind. simpl Z.to_nat.
  change (Z.to_nat 30) with 30%nat. rewrite repeat_choice_at. reflexivity.
Qed.

(** A slot record with its five fields. *)
Definition complete (slot : gmap string sval) : Prop :=
  is_Some (slot !! "username") /\ is_Some (slot !! "password")
  /\ is_Some (slot !! "host") /\ is_Some (slot !! "port")
  /\ is_Some (slot !! "dbname").

Lemma setdefault_present key value d : is_Some (d !! key) -> setdefault key value d = d.
Proof. intros [v H]. unfold setdefault. rewrite H. reflexivity. Qed.

Lemma _ensure_slot_initialized_complete env slot h d w :
  complete slot ->
  _ensure_slot_initialized env slot h d w = (inr slot, drawn 30 w).
Proof.
  intros (Hu & Hp & Hh & Hpo & Hd). unfold _ensure_slot_initialized.
  rewrite (setdefault_present "username") by assumption.
  unfold bind. rewrite generate_password_at.
  rewrite (setdefault_present "password") by assumption.
  rewrite (setdefault_present "host") by assumption.
  rewrite (setdefault_present "port") by assumption.
  rewrite (setdefault_present "dbname") by assumption.
  reflexivity.
Qed.

Lemma get_secret_ok env id w p w1 :
  get_secret env id w = (inr p, w1) -> secret_store w !! id = Some p.
Proof.
  unfold get_secret, bind, external, read.
  destruct (fault env (calls w)); [discriminate|]. simpl.
  destruct (secret_store w !! id); [|discriminate]. intros [= <- _]. reflexivity.
Qed.

Lemma read_text_ok env w c w1 :
  read_text env w = (inr c, w1) -> sqlconf_php w = Some c.
Proof.
  unfold read_text, bind, external, read.
  destruct (fault env (calls w)); [discriminate|]. simpl.
  destruct (sqlconf_php w); [|discriminate]. intros [= <- _]. reflexivity.
Qed.

(** The events a run added to the trace of [w]. *)
Definition added (w w' : World) : list event :=
  take (length (trace w') - length (trace w)) (trace w').

Lemma added_app w w' evs : trace w' = evs ++ trace w -> added w w' = evs.
Proof.
  intros H. unfold added. rewrite H, length_app.
  replace (length evs + length (trace w) - length (trace w))%nat
    with (length evs) by lia.
  apply take_app_length.
Qed.

Lemma cluster_untouched_added w w' :
  cluster_untouched w w' -> forallb (fun ev => negb (cluster_event ev)) (added w w') = true.
Proof. intros [_ _ (evs & Htr & Hall)]. rewrite (added_app _ _ _ Htr). exact Hall. Qed.

Section Aging.
Context (env : Env) (ctx : RotationContext).
Hypothesis Hwet : dry_run ctx = false.

(** What a completed [_rotate_old_slot] has put in the slot secret. *)
Lemma _rotate_old_slot_done new_active old_slot w w' :
  _rotate_old_slot env ctx new_active old_slot w = (inr tt, w') ->
  exists rds_state new_active_slot old_rds w1,
    secret_store w !! rds_slots_secret_id ctx = Some rds_state
    /\ rds_state !! new_active = Some (JDict new_active_slot)
    /\ rds_state !! old_slot = Some (JDict old_rds)
    /\ draws w1 = draws w
    /\ generate_password env None w1
       = (inr (password_at env (draws w)), drawn 30 w1)
    /\ secret_store w' !! rds_slots_secret_id ctx
       = Some (<["active_slot" := JVal (SStr new_active)]>
                (<[new_active := JDict new_active_slot]>
                  (<[old_slot := JDict (<["password" := SStr (password_at env (draws w))]> old_rds)]>
                     rds_state)))
    /\ cluster_untouched w w'.
Proof.
  intros H.
  assert (Hcl : cluster_untouched w w') by (eapply _rotate_old_slot_cluster; eauto).
  unfold _rotate_old_slot in H. rewrite Hwet in H. simpl negb in H. cbv iota in H.
  apply bind_ok in H as (rds_state & w1 & Hget & H).
  apply bind_ok in H as (nas & w2 & Hn & H). injection Hn as Hn <-.
  apply bind_ok in H as (old & w3 & Ho & H). injection Ho as Ho <-.
  apply bind_ok in H as (pw & w4 & Hpw & H).
  rewrite generate_password_at in Hpw. injection Hpw as <- <-.
  apply bind_ok in H as (? & w5 & _ & H).
  apply put_payload_stored in H as [Hst _].
  assert (Hd : draws w1 = draws w) by (eapply get_secret_draws; eauto).
  exists rds_state, nas, old, w1. split_and!; auto.
  - eapply get_secret_ok; eauto.
  - unfold slot in Hn. destruct (rds_state !! new_active) as [[|]|]; congruence.
  - unfold slot in Ho. destruct (rds_state !! old_slot) as [[|]|]; congruence.
  - rewrite generate_password_at, Hd. reflexivity.
  - rewrite Hst, lookup_insert_eq, Hd. reflexivity.
Qed.
End Aging.

Lemma discover_runtime_paths_ok w r w' :
  discover_runtime_paths w = (r, w') -> w' = w.
Proof.
  unfold discover_runtime_paths, bind, read.
  destruct (sqlconf_php w); intros [= _ <-]; reflexivity.
Qed.

Lemma slot_ok payload name s :
  payload !! name = Some (JDict s) -> slot payload name = inr s.
Proof. intros H. unfold slot. rewrite H. reflexivity. Qed.

Lemma getitem_ok {V} (d : gmap string V) key :
  is_Some (d !! key) -> exists v, getitem d key = inr v.
Proof. intros [v H]. exists v. unfold getitem. rewrite H. reflexivity. Qed.

(** The slot document says [active], and [standby] is the other label. *)
Definition labels (doc : gmap string jval) (active standby : string) : Prop :=
  doc !! "active_slot" = Some (JVal (SStr active))
  /\ (active = "A" /\ standby = "B" \/ active = "B" /\ standby = "A").

Lemma labels_active doc active standby :
  labels doc active standby ->
  active_slot doc = inr active /\ standby_slot active = inr standby
  /\ active <> standby.
Proof.
  intros [H [[-> ->]|[-> ->]]]; unfold active_slot; rewrite H;
    split_and!; try reflexivity; discriminate.
Qed.

Section Prelude.
Context (env : Env) (ctx : RotationContext).

(** Up to the comparison of the configuration with the slots, a run on
    complete slot records consults the random source twice and touches
    neither the file, the cluster nor the slot secret. *)
Lemma rotate_to_cutover_prelude w r w' doc active standby slot_x slot_y content :
  secret_store w !! rds_slots_secret_id ctx = Some doc ->
  labels doc active standby ->
  doc !! active = Some (JDict slot_x) ->
  doc !! standby = Some (JDict slot_y) ->
  complete slot_x -> complete slot_y ->
  sqlconf_php w = Some content ->
  rotate_to_cutover env ctx w = (inr r, w') ->
  exists w5,
    cluster_untouched w w5
    /\ store_but (rds_admin_secret_id ctx) w w5
    /\ draws w5 = (60 + draws w)%nat
    /\ rotate_branches env ctx doc active standby slot_x slot_y
         (parse_sqlconf content) w5 = (inr r, w').
Proof.
  intros Hdoc Hlab Hx Hy Hcx Hcy Hfile H.
  destruct (labels_active _ _ _ Hlab) as (Hact & Hstb & Hne).
  unfold rotate_to_cutover in H.
  apply bind_ok in H as (? & w0 & E0 & H).
  apply discover_runtime_paths_ok in E0 as ->.
  apply bind_ok in H as (rds & w1 & E1 & H).
  assert (rds = doc) as -> by (apply get_secret_ok in E1; congruence).
  rewrite (bind_lift_ok _ _ _ _ Hact) in H.
  rewrite (bind_lift_ok _ _ _ _ Hstb) in H.
  apply bind_ok in H as (? & w2 & E2 & H).
  apply bind_ok in H as (c & w3 & E3 & H).
  rewrite (bind_lift_ok _ _ _ _ (slot_ok _ _ _ Hx)) in H.
  rewrite (bind_lift_ok _ _ _ _ (slot_ok _ _ _ Hy)) in H.
  destruct (getitem_ok slot_x "host") as [hx Hhx]; [apply Hcx|].
  destruct (getitem_ok slot_x "dbname") as [dx Hdx]; [apply Hcx|].
  destruct (getitem_ok slot_y "host") as [hy Hhy]; [apply Hcy|].
  destruct (getitem_ok slot_y "dbname") as [dy Hdy]; [apply Hcy|].
  rewrite (bind_lift_ok _ _ _ _ Hhx), (bind_lift_ok _ _ _ _ Hdx) in H.
  rewrite (bind_step _ _ _ _ _ (_ensure_slot_initialized_complete env _ _ _ _ Hcy)) in H.
  rewrite (bind_lift_ok _ _ _ _ Hhy), (bind_lift_ok _ _ _ _ Hdy) in H.
  rewrite (bind_step _ _ _ _ _ (_ensure_slot_initialized_complete env _ _ _ _ Hcx)) in H.
  rewrite (insert_id doc standby) in H by assumption.
  rewrite (insert_id doc active) in H by assumption.
  apply bind_ok in H as (? & w5 & E5 & H).
  assert (K2 : forall P : World -> World -> Prop, PreOrder P ->
            keeps P (_load_admin_secret env ctx) -> P w1 w2).
  { intros P HP Hl. revert E2. generalize w1, (@inr exn unit x0), w2.
    change (keeps P (if negb (dry_run ctx)
                     then let* _ := _load_admin_secret env ctx in ret tt
                     else ret tt)).
    keeps_tac. }
  assert (K5 : forall P : World -> World -> Prop, PreOrder P ->
            (forall s, keeps P (_upsert_openemr_db_user env ctx s)) ->
            P (drawn 30 (drawn 30 w3)) w5).
  { intros P HP Hu. revert E5.
    generalize (drawn 30 (drawn 30 w3)), (@inr exn unit x1), w5.
    change (keeps P (if negb (dry_run ctx)
                     then for_each ["A"; "B"] (fun slot_name =>
                            let* slot := lift (slot doc slot_name) in
                            _upsert_openemr_db_user env ctx slot)
                     else ret tt)).
    keeps_tac. }
  exists w5. split_and!.
  - transitivity w1; [eapply get_secret_cluster; eauto|].
    transitivity w2; [apply K2; [typeclasses eauto | apply _load_admin_secret_cluster]|].
    transitivity w3; [eapply read_text_cluster; eauto|].
    transitivity (drawn 30 (drawn 30 w3));
      [|apply K5; [typeclasses eauto | intros; apply _upsert_openemr_db_user_cluster]].
    split; simpl; auto. exists []. auto.
  - transitivity w1; [eapply get_secret_store_but; eauto|].
    transitivity w2; [apply K2; [typeclasses eauto | apply _load_admin_secret_store_but]|].
    transitivity w3; [eapply read_text_store_but; eauto|].
    transitivity (drawn 30 (drawn 30 w3));
      [|apply K5; [typeclasses eauto | intros; apply _upsert_openemr_db_user_store_but]].
    intros id _. reflexivity.
  - assert (D1 : same_draws w w1) by (eapply get_secret_draws; eauto).
    assert (D2 : same_draws w1 w2)
      by (apply K2; [typeclasses eauto | apply _load_admin_secret_draws]).
    assert (D3 : same_draws w2 w3) by (eapply read_text_draws; eauto).
    assert (D5 : same_draws (drawn 30 (drawn 30 w3)) w5)
      by (apply K5; [typeclasses eauto | intros; apply _upsert_openemr_db_user_draws]).
    unfold same_draws in *. rewrite D5. simpl. lia.
  - apply read_text_ok in E3.
    assert (Hf : sqlconf_php w2 = sqlconf_php w).
    { transitivity (sqlconf_php w1).
      - apply (cu_file w1 w2). apply K2; [typeclasses eauto | apply _load_admin_secret_cluster].
      - apply (cu_file w w1). eapply get_secret_cluster; eauto. }
    assert (c = content) as -> by congruence.
    exact H.
Qed.
End Prelude.

Ltac units := repeat match goal with x : unit |- _ => destruct x end.

Section DriftForward.
Context (env : Env) (ctx : RotationContext).
Hypothesis Hwet : dry_run ctx = false.
Hypothesis Hids : rds_slots_secret_id ctx <> rds_admin_secret_id ctx.

(** C4, as amended.  With the slot document saying A, the configuration
    equal to slot B in its five fields and not to slot A, a cycle that
    is not a dry run and completes leaves the slot document with
    [active_slot] B, slot B as it was and slot A with the password the
    generator gave on its third call of the cycle; the configuration
    file and the cluster mirror are as before, and nothing was written
    to the file, patched or restarted. *)
Theorem drift_forward_flips_and_ages w w' doc slot_a slot_b content :
  secret_store w !! rds_slots_secret_id ctx = Some doc ->
  doc !! "active_slot" = Some (JVal (SStr "A")) ->
  doc !! "A" = Some (JDict slot_a) ->
  doc !! "B" = Some (JDict slot_b) ->
  complete slot_a -> complete slot_b ->
  sqlconf_php w = Some content ->
  _slot_matches_sqlconf slot_b (parse_sqlconf content) = true ->
  _slot_matches_sqlconf slot_a (parse_sqlconf content) = false ->
  rotate env ctx w = (inr tt, w') ->
  (exists doc',
     secret_store w' !! rds_slots_secret_id ctx = Some doc'
     /\ doc' !! "active_slot" = Some (JVal (SStr "B"))
     /\ doc' !! "A"
        = Some (JDict (<["password" := SStr (password_at env (60 + draws w))]> slot_a))
     /\ doc' !! "B" = Some (JDict slot_b))
  /\ sqlconf_php w' = sqlconf_php w
  /\ k8s_secret_data w' = k8s_secret_data w
  /\ forallb (fun ev => negb (cluster_event ev)) (added w w') = true.
Proof.
  intros Hdoc Hact HA HB Hca Hcb Hfile Hmb Hma H.
  unfold rotate in H. apply bind_ok in H as (reached & w1 & Hreach & H).
  destruct (rotate_to_cutover_prelude env ctx w reached w1 doc "A" "B"
              slot_a slot_b content)
    as (w5 & Hcl5 & Hst5 & Hdr5 & Hbr); auto.
  { split; auto. }
  unfold rotate_branches in Hbr. rewrite Hma, Hmb in Hbr. simpl in Hbr.
  rewrite Hwet in Hbr. simpl in Hbr.
  apply bind_ok in Hbr as (? & w7 & Hrec & Hbr).
  apply bind_ok in Hbr as (? & w8 & Hadm & Hbr).
  injection Hbr as <- <-. injection H as <-.
  unfold _reconcile_active_slot_to_standby in Hrec. rewrite Hwet in Hrec.
  simpl in Hrec.
  apply bind_ok in Hrec as ([] & w6 & Hput & Hold).
  assert (Hcl6 : cluster_untouched w5 w6) by (eapply put_payload_cluster; eauto).
  assert (Hdr6 : same_draws w5 w6) by (eapply put_payload_draws; eauto).
  apply put_payload_stored in Hput as [Hst6 _].
  units.
  destruct (_rotate_old_slot_done env ctx Hwet _ _ _ _ Hold)
    as (rds & nas & old & wg & Hrds & Hnas & Hod & _ & _ & Hst7 & Hcl7).
  rewrite Hst6, lookup_insert_eq in Hrds. injection Hrds as <-.
  rewrite lookup_insert_ne in Hnas by discriminate.
  rewrite lookup_insert_ne in Hod by discriminate.
  assert (nas = slot_b) as -> by congruence.
  assert (old = slot_a) as -> by congruence.
  assert (Hcl8 : cluster_untouched w7 w8)
    by (eapply _rotate_admin_password_cluster; eauto).
  assert (Hst8 : store_but (rds_admin_secret_id ctx) w7 w8)
    by (eapply _rotate_admin_password_store_but; eauto).
  assert (Hcl : cluster_untouched w w8).
  { transitivity w5; [assumption|]. transitivity w6; [assumption|].
    transitivity w7; assumption. }
  split_and!.
  - eexists. split; [rewrite Hst8 by assumption; exact Hst7|].
    unfold same_draws in Hdr6. rewrite Hdr6, Hdr5.
    split_and!.
    + apply lookup_insert_eq.
    + rewrite lookup_insert_ne by discriminate.
      rewrite lookup_insert_ne by discriminate. apply lookup_insert_eq.
    + rewrite lookup_insert_ne by discriminate. apply lookup_insert_eq.
  - apply Hcl.
  - apply Hcl.
  - apply cluster_untouched_added. assumption.
Qed.
End DriftForward.

(** The stored value of a field of a slot. *)
Definition stored_field (w : World) (secret_id label key : string) : option sval :=
  match secret_store w !! secret_id with
  | Some doc =>
      match doc !! label with
      | Some (JDict s) => s !! key
      | _ => None
      end
  | None => None
  end.

(** The stored [active_slot]. *)
Definition stored_active (w : World) (secret_id : string) : option jval :=
  match secret_store w !! secret_id with
  | Some doc => doc !! "active_slot"
  | None => None
  end.

(** The configuration points at slot B while the document says A. *)
Definition drifted_world (password_a : string) : World :=
  bench_world
    (bench_slots "A" (bench_slot "openemr_a" password_a "openemr")
                     (bench_slot "openemr_b" "pwB" "openemr"))
    (bench_admin "adminpw") (bench_sqlconf "openemr_b" "pwB")
    (<["root" := "adminpw"]> (<["openemr_a" := password_a]>
     (<["openemr_b" := "pwB"]> ∅))).

Lemma drift_forward_flips_and_ages_witness :
  stored_active (snd (rotate calm (bench_ctx false) (drifted_world "pwA"))) "rds"
  = Some (JVal (SStr "B"))
  /\ stored_field (snd (rotate calm (bench_ctx false) (drifted_world "pwA")))
       "rds" "A" "password"
     = Some (SStr (password_at calm 60))
  /\ sqlconf_php (snd (rotate calm (bench_ctx false) (drifted_world "pwA")))
     = sqlconf_php (drifted_world "pwA").
Proof.
  destruct (drift_forward_flips_and_ages calm (bench_ctx false) eq_refl
              ltac:(discriminate) (drifted_world "pwA")
              (snd (rotate calm (bench_ctx false) (drifted_world "pwA")))
              (bench_slots "A" (bench_slot "openemr_a" "pwA" "openemr")
                               (bench_slot "openemr_b" "pwB" "openemr"))
              (bench_slot "openemr_a" "pwA" "openemr")
              (bench_slot "openemr_b" "pwB" "openemr")
              (bench_sqlconf "openemr_b" "pwB"))
    as ((doc' & Hst & Hact & HA & _) & Hfile & _);
    try (vm_compute; reflexivity).
  - repeat split; eexists; vm_compute; reflexivity.
  - repeat split; eexists; vm_compute; reflexivity.
  - change (rds_slots_secret_id (bench_ctx false)) with "rds" in Hst.
    unfold stored_active, stored_field. rewrite Hst, Hact, HA.
    split_and!; [reflexivity | apply lookup_insert_eq | exact Hfile].
Defined.

(** The random source that always draws the first character. *)
Definition monotone : Env := {| rand := fun _ => 0%nat; fault := fun _ => false |}.

Definition thirty_a : string := "aaaaaaaaaaaaaaaaaaaaaaaaaaaaaa".

(** C4 as it is stated fails on the last point: the password issued for
    slot A is whatever the generator gives, and the generator may give
    the password the slot already had.  Here the cycle completes, flips
    [active_slot] to B, and stores for A its prior password. *)
Lemma drift_forward_password_may_repeat :
  fst (rotate monotone (bench_ctx false) (drifted_world thirty_a)) = inr tt
  /\ stored_active (drifted_world thirty_a) "rds" = Some (JVal (SStr "A"))
  /\ stored_active (snd (rotate monotone (bench_ctx false) (drifted_world thirty_a)))
       "rds" = Some (JVal (SStr "B"))
  /\ stored_field (drifted_world thirty_a) "rds" "A" "password"
     = Some (SStr thirty_a)
  /\ stored_field (snd (rotate monotone (bench_ctx false) (drifted_world thirty_a)))
       "rds" "A" "password"
     = Some (SStr thirty_a).
Proof. vm_compute. repeat split. Qed.

(** ** Provisioning leaves its statements in the trace *)

(** The trace only grows. *)
Abbreviation grows := (trace_adds (fun _ => true)).

Lemma set_sqlconf_php_adds ok c : keeps (trace_adds ok) (set_sqlconf_php c).
Proof. intros w r w' [= _ <-]. exists []. auto. Qed.

Lemma set_k8s_secret_data_adds ok f : keeps (trace_adds ok) (set_k8s_secret_data f).
Proof. intros w r w' [= _ <-]. exists []. auto. Qed.

Lemma secrets_choice_adds ok env s : keeps (trace_adds ok) (secrets_choice env s).
Proof.
  intros w r w' H. unfold secrets_choice in H.
  destruct (String.get _ s); injection H as _ <-; exists []; auto.
Qed.

#[export] Hint Resolve set_sqlconf_php_adds set_k8s_secret_data_adds
  secrets_choice_adds : keeps_db.

Lemma grows_in w w' ev : grows w w' -> In ev (added w w') -> forall w'', grows w' w'' -> In ev (added w w'').
Proof.
  intros (e1 & T1 & _) Hin w'' (e2 & T2 & _).
  rewrite (added_app _ _ _ T1) in Hin.
  rewrite (added_app w w'' (e2 ++ e1)) by (rewrite T2, T1, app_assoc; reflexivity).
  apply in_or_app. auto.
Qed.

Lemma grows_in_later w w' w'' ev :
  grows w w' -> grows w' w'' -> In ev (added w' w'') -> In ev (added w w'').
Proof.
  intros (e1 & T1 & _) (e2 & T2 & _) Hin.
  rewrite (added_app _ _ _ T2) in Hin.
  rewrite (added_app w w'' (e2 ++ e1)) by (rewrite T2, T1, app_assoc; reflexivity).
  apply in_or_app. auto.
Qed.

Lemma grows_step_in w a b w' ev :
  grows w a -> trace b = ev :: trace a -> grows b w' -> In ev (added w w').
Proof.
  intros (e1 & T1 & _) Tb (e2 & T2 & _).
  rewrite (added_app w w' (e2 ++ ev :: e1)).
  - apply in_or_app. right. left. reflexivity.
  - rewrite T2, Tb, T1, <- app_assoc. reflexivity.
Qed.

Lemma bind_lift_inv {A B} (x : exn + A) (k : A -> M B) w b w' :
  bind (lift x) k w = (inr b, w') -> exists a, x = inr a /\ k a w = (inr b, w').
Proof. destruct x as [e|a]; [discriminate|]. eauto. Qed.

Lemma execute_logged env stmt w w' :
  execute env stmt w = (inr tt, w') -> trace w' = EvExecute stmt :: trace w.
Proof.
  unfold execute, bind, external, read, log, set_mysql_users, ret, raise.
  destruct (fault env (calls w)); [discriminate|]. simpl.
  repeat match goal with
         | |- context [match ?x with _ => _ end] => destruct x
         end; intros [= <-]; reflexivity.
Qed.

Section Grows.
Context (env : Env) (ctx : RotationContext).

Lemma repeat_choice_grows n : keeps grows (repeat_choice env n).
Proof. induction n; simpl; keeps_tac. Qed.

Hint Resolve repeat_choice_grows : keeps_db.

Lemma generate_password_grows n : keeps grows (generate_password env n).
Proof. keeps_unfold generate_password. Qed.

Lemma get_secret_grows id : keeps grows (get_secret env id).
Proof. keeps_unfold get_secret. Qed.

Lemma put_payload_grows id p : keeps grows (put_payload env id p).
Proof. keeps_unfold put_payload. Qed.

Lemma pymysql_connect_grows u p : keeps grows (pymysql_connect env u p).
Proof. keeps_unfold pymysql_connect. Qed.

Lemma execute_grows s : keeps grows (execute env s).
Proof. apply execute_adds. reflexivity. Qed.

Hint Resolve generate_password_grows get_secret_grows put_payload_grows
  pymysql_connect_grows execute_grows : keeps_db.

Lemma validate_rds_connection_grows s : keeps grows (validate_rds_connection env s).
Proof. keeps_unfold validate_rds_connection. Qed.

Lemma _load_admin_secret_grows : keeps grows (_load_admin_secret env ctx).
Proof.
  unfold _load_admin_secret, _load_admin_secret_try, connection_opens. keeps_tac.
Qed.

Hint Resolve validate_rds_connection_grows _load_admin_secret_grows : keeps_db.

Lemma _upsert_openemr_db_user_grows s : keeps grows (_upsert_openemr_db_user env ctx s).
Proof. keeps_unfold _upsert_openemr_db_user. Qed.

Lemma _rotate_admin_password_grows : keeps grows (_rotate_admin_password env ctx).
Proof. keeps_unfold _rotate_admin_password. Qed.

Hint Resolve _upsert_openemr_db_user_grows _rotate_admin_password_grows : keeps_db.

Lemma _rotate_old_slot_grows a b : keeps grows (_rotate_old_slot env ctx a b).
Proof. keeps_unfold _rotate_old_slot. Qed.

(** A completed upsert of a slot with text for user name and password
    has sent the [ALTER USER] that sets that password. *)
Lemma _upsert_openemr_db_user_sent slot u p w w' :
  slot !! "username" = Some u -> slot !! "password" = Some p ->
  _upsert_openemr_db_user env ctx slot w = (inr tt, w') ->
  In (EvExecute (AlterUserRequireSSL u p)) (added w w').
Proof.
  intros Hu Hp H. unfold _upsert_openemr_db_user in H.
  apply bind_ok in H as (admin & w1 & E1 & H).
  assert (G1 : grows w w1) by (eapply _load_admin_secret_grows; eauto).
  apply bind_lift_inv in H as (h & _ & H).
  apply bind_ok in H as (ah & w2 & E2 & H).
  assert (w2 = w1) as ->.
  { destruct (truthy h); [injection E2 as _ <- | unfold lift in E2;
      injection E2 as _ <-]; reflexivity. }
  do 5 (apply bind_lift_inv in H as (? & _ & H)).
  apply bind_ok in H as (db & w2 & E3 & H).
  assert (w2 = w1) as -> by (destruct x3; [injection E3 as _ <- | discriminate]; reflexivity).
  destruct (negb (dbname_supported db)); [discriminate|].
  apply bind_ok in H as ([] & w3 & E4 & H).
  assert (G3 : grows w1 w3) by (eapply pymysql_connect_grows; eauto).
  apply bind_lift_inv in H as (u' & Hu' & H).
  apply bind_lift_inv in H as (p' & Hp' & H).
  unfold getitem in Hu', Hp'. rewrite Hu in Hu'. rewrite Hp in Hp'.
  injection Hu' as <-. injection Hp' as <-.
  apply bind_ok in H as ([] & w4 & E5 & H).
  assert (G4 : grows w3 w4) by (eapply execute_grows; eauto).
  apply bind_ok in H as ([] & w5 & E6 & H).
  apply execute_logged in E6.
  apply bind_ok in H as ([] & w6 & E7 & H).
  assert (G6 : grows w5 w6) by (eapply execute_grows; eauto).
  assert (G7 : grows w6 w') by (eapply execute_grows; eauto).
  eapply grows_step_in; [|exact E6|].
  - transitivity w1; [assumption|]. transitivity w3; assumption.
  - transitivity w6; assumption.
Qed.
End Grows.

Section Bootstrap.
Context (env : Env) (ctx : RotationContext).
Hypothesis Hwet : dry_run ctx = false.

Lemma _rotate_old_slot_sent new_active old_slot rds_state old_rds u w w' :
  _rotate_old_slot env ctx new_active old_slot w = (inr tt, w') ->
  secret_store w !! rds_slots_secret_id ctx = Some rds_state ->
  rds_state !! old_slot = Some (JDict old_rds) ->
  old_rds !! "username" = Some u ->
  In (EvExecute (AlterUserRequireSSL u (SStr (password_at env (draws w)))))
     (added w w').
Proof.
  intros H Hst Hold Hu.
  unfold _rotate_old_slot in H. rewrite Hwet in H. simpl negb in H. cbv iota in H.
  apply bind_ok in H as (rds & w1 & Hget & H).
  assert (G1 : grows w w1) by (eapply get_secret_grows; eauto).
  assert (D1 : same_draws w w1) by (eapply get_secret_draws; eauto).
  assert (rds = rds_state) as -> by (apply get_secret_ok in Hget; congruence).
  apply bind_lift_inv in H as (nas & _ & H).
  apply bind_lift_inv in H as (old & Ho & H).
  unfold slot in Ho. rewrite Hold in Ho. injection Ho as <-.
  apply bind_ok in H as (pw & w2 & Hpw & H).
  rewrite generate_password_at in Hpw. injection Hpw as <- <-.
  apply bind_ok in H as ([] & w3 & Hup & H).
  apply bind_ok in Hup as ([] & w4 & Hup & Hval).
  assert (G3 : grows w4 w3) by (eapply validate_rds_connection_grows; eauto).
  assert (G4 : grows w3 w') by (eapply put_payload_grows; eauto).
  assert (G2 : grows (drawn 30 w1) w4)
    by (eapply _upsert_openemr_db_user_grows; eauto).
  apply _upsert_openemr_db_user_sent
    with (u := u) (p := SStr (password_at env (draws w1))) in Hup.
  - rewrite <- D1.
    assert (G0 : grows w (drawn 30 w1))
      by (transitivity w1; [assumption | exists []; auto]).
    assert (G5 : grows w4 w') by (transitivity w3; assumption).
    eapply grows_in_later; [exact G0 | transitivity w4; assumption |].
    eapply grows_in; eauto.
  - rewrite lookup_insert_ne by discriminate. assumption.
  - apply lookup_insert_eq.
Qed.

(** What a completed bootstrap has generated, provisioned and put. *)
Lemma _bootstrap_slots_from_sqlconf_done sqlconf rds_state active standby w w' :
  _bootstrap_slots_from_sqlconf env ctx sqlconf rds_state active standby w
  = (inr tt, w') ->
  let slot_a := bootstrap_slot sqlconf "openemr_a" (password_at env (draws w)) in
  let slot_b := bootstrap_slot sqlconf "openemr_b" (password_at env (30 + draws w)) in
  secret_store w' !! rds_slots_secret_id ctx
  = Some (<["active_slot" := JVal (SStr active)]>
           (<[standby := JDict slot_b]> (<[active := JDict slot_a]> rds_state)))
  /\ draws w' = (60 + draws w)%nat
  /\ cluster_untouched w w'
  /\ grows w w'
  /\ In (EvExecute (AlterUserRequireSSL (SStr "openemr_a")
                      (SStr (password_at env (draws w))))) (added w w')
  /\ In (EvExecute (AlterUserRequireSSL (SStr "openemr_b")
                      (SStr (password_at env (30 + draws w))))) (added w w').
Proof.
  intros H. cbv zeta.
  assert (Hcl : cluster_untouched w w')
    by (eapply _bootstrap_slots_from_sqlconf_cluster; eauto).
  unfold _bootstrap_slots_from_sqlconf in H. rewrite Hwet in H.
  simpl negb in H. cbv iota in H.
  apply bind_ok in H as (pa & w1 & Ha & H).
  rewrite generate_password_at in Ha. injection Ha as <- <-.
  apply bind_ok in H as (pb & w2 & Hb & H).
  rewrite generate_password_at in Hb. injection Hb as <- <-.
  change (draws (drawn 30 w)) with (30 + draws w)%nat in H.
  apply bind_ok in H as ([] & w3 & Hprov & H).
  apply bind_ok in Hprov as ([] & w4 & Hua & Hprov).
  apply bind_ok in Hprov as ([] & w5 & Hva & Hprov).
  apply bind_ok in Hprov as ([] & w6 & Hub & Hvb).
  set (w0 := drawn 30 (drawn 30 w)) in *.
  assert (G0 : grows w w0) by (exists []; auto).
  assert (G4 : grows w0 w4) by (eapply _upsert_openemr_db_user_grows; eauto).
  assert (G5 : grows w4 w5) by (eapply validate_rds_connection_grows; eauto).
  assert (G6 : grows w5 w6) by (eapply _upsert_openemr_db_user_grows; eauto).
  assert (G3 : grows w6 w3) by (eapply validate_rds_connection_grows; eauto).
  assert (G7 : grows w3 w') by (eapply put_payload_grows; eauto).
  assert (D4 : same_draws w0 w4) by (eapply _upsert_openemr_db_user_draws; eauto).
  assert (D5 : same_draws w4 w5) by (eapply validate_rds_connection_draws; eauto).
  assert (D6 : same_draws w5 w6) by (eapply _upsert_openemr_db_user_draws; eauto).
  assert (D3 : same_draws w6 w3) by (eapply validate_rds_connection_draws; eauto).
  assert (D7 : same_draws w3 w') by (eapply put_payload_draws; eauto).
  apply _upsert_openemr_db_user_sent
    with (u := SStr "openemr_a") (p := SStr (password_at env (draws w)))
    in Hua; [|reflexivity..].
  apply _upsert_openemr_db_user_sent
    with (u := SStr "openemr_b") (p := SStr (password_at env (30 + draws w)))
    in Hub; [|reflexivity..].
  apply put_payload_stored in H as [Hst _].
  split_and!.
  - rewrite Hst. apply lookup_insert_eq.
  - unfold same_draws in *. rewrite D7, D3, D6, D5, D4. unfold w0. simpl. lia.
  - assumption.
  - transitivity w0; [assumption|]. transitivity w4; [assumption|].
    transitivity w5; [assumption|]. transitivity w6; [assumption|].
    transitivity w3; assumption.
  - eapply grows_in_later; [exact G0 | |].
    + transitivity w4; [assumption|]. transitivity w5; [assumption|].
      transitivity w6; [assumption|]. transitivity w3; assumption.
    + eapply grows_in; [exact G4 | exact Hua |].
      transitivity w5; [assumption|]. transitivity w6; [assumption|].
      transitivity w3; assumption.
  - eapply grows_in_later with (w' := w5).
    + transitivity w0; [assumption|]. transitivity w4; assumption.
    + transitivity w6; [assumption|]. transitivity w3; assumption.
    + eapply grows_in; [exact G6 | exact Hub |]. transitivity w3; assumption.
Qed.
End Bootstrap.

Lemma cluster_untouched_grows w w' : cluster_untouched w w' -> grows w w'.
Proof.
  intros [_ _ (evs & T & _)]. exists evs. split; [assumption|].
  apply forallb_forall. reflexivity.
Qed.

Section BootstrapCycle.
Context (env : Env) (ctx : RotationContext).
Hypothesis Hwet : dry_run ctx = false.
Hypothesis Hids : rds_slots_secret_id ctx <> rds_admin_secret_id ctx.

End BootstrapCycle.

(** The configuration carries the admin account: it equals neither slot. *)
Definition unmanaged_world (active : string) : World :=
  bench_world
    (bench_slots active (bench_slot "openemr_a" "pwA" "openemr")
                        (bench_slot "openemr_b" "pwB" "openemr"))
    (bench_admin "adminpw") (bench_sqlconf "root" "adminpw")
    (<["root" := "adminpw"]> ∅).



(** ** The guarded cutover and its rollback *)

Definition is_restart (ev : event) : bool :=
  match ev with
  | EvRestart => true
  | _ => false
  end.

(** The restarts triggered among some events. *)
Definition restarts (evs : list event) : nat := length (filter (fun ev => is_restart ev = true) evs).

Lemma restarts_app e1 e2 : restarts (e1 ++ e2) = (restarts e1 + restarts e2)%nat.
Proof. unfold restarts. rewrite filter_app, length_app. reflexivity. Qed.

Lemma restarts_none evs :
  forallb (fun ev => negb (is_restart ev)) evs = true -> restarts evs = 0%nat.
Proof.
  unfold restarts. induction evs as [|ev evs IH]; simpl; [reflexivity|].
  intros [Hev Hall]%andb_prop. rewrite filter_cons.
  destruct (decide (is_restart ev = true)) as [E|E].
  - rewrite E in Hev. discriminate.
  - auto.
Qed.

Abbreviation no_restart := (trace_adds (fun ev => negb (is_restart ev))).

(** The configuration file is as it was. *)
Definition same_file (w w' : World) : Prop := sqlconf_php w' = sqlconf_php w.

#[global] Instance same_file_preorder : PreOrder same_file.
Proof. split; unfold same_file; [intros w | intros w1 w2 w3]; congruence. Qed.

(** The cluster mirror is as it was. *)
Definition same_mirror (w w' : World) : Prop := k8s_secret_data w' = k8s_secret_data w.

#[global] Instance same_mirror_preorder : PreOrder same_mirror.
Proof. split; unfold same_mirror; [intros w | intros w1 w2 w3]; congruence. Qed.

Ltac field_tac :=
  intros w r w' H;
  repeat match type of H with
         | context [if ?b then _ else _] => destruct b
         | context [match ?x with _ => _ end] => destruct x
         end;
  injection H as _ <-; reflexivity.

Lemma external_file env err : keeps same_file (external env err).
Proof. unfold external. field_tac. Qed.
Lemma external_mirror env err : keeps same_mirror (external env err).
Proof. unfold external. field_tac. Qed.
Lemma log_file ev : keeps same_file (log ev).
Proof. unfold log. field_tac. Qed.
Lemma log_mirror ev : keeps same_mirror (log ev).
Proof. unfold log. field_tac. Qed.
Lemma set_k8s_secret_data_file f : keeps same_file (set_k8s_secret_data f).
Proof. unfold set_k8s_secret_data. field_tac. Qed.
Lemma set_mysql_users_file f : keeps same_file (set_mysql_users f).
Proof. unfold set_mysql_users. field_tac. Qed.
Lemma set_mysql_users_mirror f : keeps same_mirror (set_mysql_users f).
Proof. unfold set_mysql_users. field_tac. Qed.
Lemma set_secret_store_file f : keeps same_file (set_secret_store f).
Proof. unfold set_secret_store. field_tac. Qed.
Lemma set_secret_store_mirror f : keeps same_mirror (set_secret_store f).
Proof. unfold set_secret_store. field_tac. Qed.

#[export] Hint Resolve external_file external_mirror log_file log_mirror
  set_k8s_secret_data_file set_mysql_users_file set_mysql_users_mirror
  set_secret_store_file set_secret_store_mirror : keeps_db.

Section Rollback.
Context (env : Env) (ctx : RotationContext).

Lemma pymysql_connect_file u p : keeps same_file (pymysql_connect env u p).
Proof. keeps_unfold pymysql_connect. Qed.
Lemma pymysql_connect_mirror u p : keeps same_mirror (pymysql_connect env u p).
Proof. keeps_unfold pymysql_connect. Qed.
Lemma pymysql_connect_no_restart u p : keeps no_restart (pymysql_connect env u p).
Proof. keeps_unfold pymysql_connect. Qed.
Lemma execute_file s : keeps same_file (execute env s).
Proof. keeps_unfold execute. Qed.
Lemma execute_mirror s : keeps same_mirror (execute env s).
Proof. keeps_unfold execute. Qed.
Lemma execute_no_restart s : keeps no_restart (execute env s).
Proof. apply execute_adds. reflexivity. Qed.

Hint Resolve pymysql_connect_file pymysql_connect_mirror
  pymysql_connect_no_restart execute_file execute_mirror execute_no_restart
  : keeps_db.

Lemma _validate_runtime_file s : keeps same_file (_validate_runtime env ctx s).
Proof. unfold _validate_runtime, validate_rds_connection, validate_openemr_health. keeps_tac. Qed.
Lemma _validate_runtime_mirror s : keeps same_mirror (_validate_runtime env ctx s).
Proof. unfold _validate_runtime, validate_rds_connection, validate_openemr_health. keeps_tac. Qed.
Lemma _validate_runtime_no_restart s : keeps no_restart (_validate_runtime env ctx s).
Proof. unfold _validate_runtime, validate_rds_connection, validate_openemr_health. keeps_tac. Qed.

Lemma _wait_for_rollout_file : keeps same_file (_wait_for_rollout env ctx).
Proof. keeps_unfold _wait_for_rollout. Qed.
Lemma _wait_for_rollout_mirror : keeps same_mirror (_wait_for_rollout env ctx).
Proof. keeps_unfold _wait_for_rollout. Qed.
Lemma _wait_for_rollout_no_restart : keeps no_restart (_wait_for_rollout env ctx).
Proof. keeps_unfold _wait_for_rollout. Qed.

Hint Resolve _wait_for_rollout_file _wait_for_rollout_mirror : keeps_db.

Lemma rollout_restart_deployment_file : keeps same_file (rollout_restart_deployment env ctx).
Proof. keeps_unfold rollout_restart_deployment. Qed.
Lemma rollout_restart_deployment_mirror : keeps same_mirror (rollout_restart_deployment env ctx).
Proof. keeps_unfold rollout_restart_deployment. Qed.
Lemma update_k8s_db_secret_file s : keeps same_file (update_k8s_db_secret env s).
Proof. keeps_unfold update_k8s_db_secret. Qed.
Lemma update_k8s_db_secret_no_restart s : keeps no_restart (update_k8s_db_secret env s).
Proof. keeps_unfold update_k8s_db_secret. Qed.
Lemma atomic_write_no_restart c : keeps no_restart (atomic_write env c).
Proof. keeps_unfold atomic_write. Qed.

Lemma atomic_write_done c w w' :
  atomic_write env c w = (inr tt, w') -> sqlconf_php w' = Some c.
Proof.
  unfold atomic_write, bind, external, set_sqlconf_php, log.
  destruct (fault env (calls w)); [discriminate|]. intros [= <-]. reflexivity.
Qed.

Lemma encoded_inv s key v : encoded s key = inr v -> s !! key = Some (SStr v).
Proof. unfold encoded. destruct (s !! key) as [[|]|]; congruence. Qed.

Lemma update_k8s_db_secret_done s w w' :
  update_k8s_db_secret env s w = (inr tt, w') ->
  exists host user password database,
    s !! "host" = Some (SStr host) /\ s !! "username" = Some (SStr user)
    /\ s !! "password" = Some (SStr password)
    /\ s !! "dbname" = Some (SStr database)
    /\ k8s_secret_data w'
       = mirror_data host user password database ∪ k8s_secret_data w.
Proof.
  unfold update_k8s_db_secret. intros H.
  apply bind_lift_inv in H as (h & Hh%encoded_inv & H).
  apply bind_lift_inv in H as (u & Hu%encoded_inv & H).
  apply bind_lift_inv in H as (p & Hp%encoded_inv & H).
  apply bind_lift_inv in H as (d & Hd%encoded_inv & H).
  exists h, u, p, d. split_and!; auto.
  unfold bind, external, set_k8s_secret_data, log in H.
  destruct (fault env (calls w)); [discriminate|]. injection H as <-. reflexivity.
Qed.

Lemma rollout_restart_deployment_done w w' :
  rollout_restart_deployment env ctx w = (inr tt, w') ->
  exists evs, trace w' = evs ++ trace w /\ restarts evs = 1%nat.
Proof.
  unfold rollout_restart_deployment. intros H.
  apply bind_ok in H as (n & w1 & E1 & H).
  apply bind_ok in H as ([] & w2 & E2 & H).
  assert (T1 : trace w1 = trace w).
  { unfold external in E1. destruct (fault env (calls w)); [discriminate|].
    injection E1 as _ <-. reflexivity. }
  assert (T2 : trace w2 = EvRestart :: trace w1) by (injection E2 as <-; reflexivity).
  apply _wait_for_rollout_no_restart in H as (e3 & T3 & A3).
  exists (e3 ++ [EvRestart]). split.
  - rewrite T3, T2, T1, <- app_assoc. reflexivity.
  - rewrite restarts_app, (restarts_none _ A3). reflexivity.
Qed.

(** What a completed rollback leaves: the file holds the original
    content, the mirror holds the fields of the given slot, one restart
    was triggered, and the secret store was not touched. *)
Lemma _rollback_done original slot w w' :
  _rollback env ctx original slot w = (inr tt, w') ->
  sqlconf_php w' = Some original
  /\ (exists host user password database,
        slot !! "host" = Some (SStr host) /\ slot !! "username" = Some (SStr user)
        /\ slot !! "password" = Some (SStr password)
        /\ slot !! "dbname" = Some (SStr database)
        /\ k8s_secret_data w'
           = mirror_data host user password database ∪ k8s_secret_data w)
  /\ restarts (added w w') = 1%nat
  /\ store_untouched w w'.
Proof.
  intros H.
  assert (Hst : store_untouched w w') by (eapply _rollback_store; eauto).
  unfold _rollback in H.
  apply bind_ok in H as ([] & w1 & E1 & H).
  apply bind_ok in H as ([] & w2 & E2 & H).
  apply bind_ok in H as ([] & w3 & E3 & H).
  assert (F2 : same_file w1 w2) by (eapply update_k8s_db_secret_file; eauto).
  assert (F3 : same_file w2 w3) by (eapply rollout_restart_deployment_file; eauto).
  assert (F4 : same_file w3 w') by (eapply _validate_runtime_file; eauto).
  assert (M1 : same_file w w1 -> True) by auto.
  assert (K3 : same_mirror w2 w3) by (eapply rollout_restart_deployment_mirror; eauto).
  assert (K4 : same_mirror w3 w') by (eapply _validate_runtime_mirror; eauto).
  assert (K1 : k8s_secret_data w1 = k8s_secret_data w).
  { unfold atomic_write, bind, external, set_sqlconf_php, log in E1.
    destruct (fault env (calls w)); [discriminate|]. injection E1 as <-. reflexivity. }
  destruct (atomic_write_no_restart _ _ _ _ E1) as (e1 & T1 & A1).
  destruct (update_k8s_db_secret_no_restart _ _ _ _ E2) as (e2 & T2 & A2).
  destruct (rollout_restart_deployment_done _ _ E3) as (e3 & T3 & A3).
  destruct (_validate_runtime_no_restart _ _ _ _ H) as (e4 & T4 & A4).
  apply atomic_write_done in E1.
  apply update_k8s_db_secret_done in E2 as (h & u & p & d & Hh & Hu & Hp & Hd & Hk).
  unfold same_file, same_mirror in *.
  split_and!.
  - congruence.
  - exists h, u, p, d. split_and!; auto. rewrite K4, K3, Hk, K1. reflexivity.
  - rewrite (added_app w w' (e4 ++ e3 ++ e2 ++ e1)).
    + rewrite !restarts_app, A3, (restarts_none _ A1), (restarts_none _ A2),
        (restarts_none _ A4). reflexivity.
    + rewrite T4, T3, T2, T1, <- !app_assoc. reflexivity.
  - assumption.
Qed.

Lemma put_payload_failed id p w e w' :
  put_payload env id p w = (inl e, w') -> store_untouched w w'.
Proof.
  unfold put_payload, bind, external, set_secret_store, log.
  destruct (fault env (calls w)); [|discriminate].
  intros [= _ <-]. split; simpl; auto. exists []. auto.
Qed.

(** A cutover that fails has not touched the secret store. *)
Lemma cutover_failed st w e w' :
  cutover env ctx st w = (inl e, w') -> store_untouched w w'.
Proof.
  unfold cutover. intros H.
  apply bind_err in H as [H | (? & w1 & E1 & H)];
    [eapply atomic_write_store; eauto|].
  apply bind_err in H as [H | (? & w2 & E2 & H)].
  { transitivity w1; [eapply atomic_write_store | eapply update_k8s_db_secret_store];
      eauto. }
  apply bind_err in H as [H | (? & w3 & E3 & H)].
  { transitivity w1; [eapply atomic_write_store; eauto|].
    transitivity w2; [eapply update_k8s_db_secret_store; eauto|].
    eapply rollout_restart_deployment_store; eauto. }
  apply bind_err in H as [H | (? & w4 & E4 & H)].
  { transitivity w1; [eapply atomic_write_store; eauto|].
    transitivity w2; [eapply update_k8s_db_secret_store; eauto|].
    transitivity w3; [eapply rollout_restart_deployment_store; eauto|].
    eapply _validate_runtime_store; eauto. }
  transitivity w1; [eapply atomic_write_store; eauto|].
  transitivity w2; [eapply update_k8s_db_secret_store; eauto|].
  transitivity w3; [eapply rollout_restart_deployment_store; eauto|].
  transitivity w4; [eapply _validate_runtime_store; eauto|].
  eapply put_payload_failed; eauto.
Qed.
End Rollback.

Section FailedCutover.
Context (env : Env) (ctx : RotationContext).
Hypothesis Hids : rds_slots_secret_id ctx <> rds_admin_secret_id ctx.

(** In the steady state the cycle enters the guarded section with the
    stored records and the content of the file, having touched neither
    the file, the cluster nor the slot secret. *)
Lemma steady_state_reaches_cutover w doc slot_a slot_b content st w1 :
  secret_store w !! rds_slots_secret_id ctx = Some doc ->
  doc !! "active_slot" = Some (JVal (SStr "A")) ->
  doc !! "A" = Some (JDict slot_a) ->
  doc !! "B" = Some (JDict slot_b) ->
  complete slot_a -> complete slot_b ->
  sqlconf_php w = Some content ->
  _slot_matches_sqlconf slot_a (parse_sqlconf content) = true ->
  rotate_to_cutover env ctx w = (inr (Some st), w1) ->
  cs_active_slot st = slot_a
  /\ cs_original_sqlconf_content st = content
  /\ cluster_untouched w w1
  /\ store_but (rds_admin_secret_id ctx) w w1.
Proof.
  intros Hdoc Hact HA HB Hca Hcb Hfile Hma H.
  destruct (rotate_to_cutover_prelude env ctx w (Some st) w1 doc "A" "B"
              slot_a slot_b content)
    as (w5 & Hcl5 & Hst5 & Hdr5 & Hbr); auto.
  { split; auto. }
  unfold rotate_branches in Hbr. rewrite Hma in Hbr. simpl in Hbr.
  rewrite andb_false_r in Hbr.
  unfold rotate_tail in Hbr. simpl in Hbr.
  apply bind_ok in Hbr as ([] & w6 & E6 & Hbr).
  apply bind_ok in Hbr as ([] & w7 & E7 & Hbr).
  apply bind_ok in Hbr as (orig & w8 & E8 & Hbr).
  apply bind_lift_inv in Hbr as (upd & Hupd & Hbr).
  destruct (dry_run ctx); [discriminate|].
  injection Hbr as <- <-. simpl.
  assert (C6 : cluster_untouched w5 w6)
    by (eapply _upsert_openemr_db_user_cluster; eauto).
  assert (C7 : cluster_untouched w6 w7)
    by (eapply validate_rds_connection_cluster; eauto).
  assert (C8 : cluster_untouched w7 w8) by (eapply read_text_cluster; eauto).
  assert (S6 : store_but (rds_admin_secret_id ctx) w5 w6)
    by (eapply _upsert_openemr_db_user_store_but; eauto).
  assert (S7 : store_but (rds_admin_secret_id ctx) w6 w7)
    by (eapply validate_rds_connection_store_but; eauto).
  assert (S8 : store_but (rds_admin_secret_id ctx) w7 w8)
    by (eapply read_text_store_but; eauto).
  assert (C : cluster_untouched w w7).
  { transitivity w5; [assumption|]. transitivity w6; assumption. }
  apply read_text_ok in E8. rewrite (cu_file _ _ C), Hfile in E8.
  split_and!.
  - reflexivity.
  - congruence.
  - transitivity w7; assumption.
  - transitivity w5; [assumption|]. transitivity w6; [assumption|].
    transitivity w7; assumption.
Qed.

End FailedCutover.

(** The steady state: the configuration points at slot A, the active
    one, and both accounts exist. *)
Definition steady_world : World :=
  bench_world
    (bench_slots "A" (bench_slot "openemr_a" "pwA" "openemr")
                     (bench_slot "openemr_b" "pwB" "openemr"))
    (bench_admin "adminpw") (bench_sqlconf "openemr_a" "pwA")
    (<["root" := "adminpw"]> (<["openemr_a" := "pwA"]>
     (<["openemr_b" := "pwB"]> ∅))).


Lemma bench_slot_complete u p d : complete (bench_slot u p d).
Proof. repeat split; eexists; vm_compute; reflexivity. Qed.

(** The patch of the cluster mirror in the guarded section (call 29)
    fails; every other call goes through. *)
Definition patch_fails_once : Env :=
  {| rand := fun i => i; fault := fun n => Nat.eqb n 29 |}.

(** What the cycle holds on entering the guarded section from
    [steady_world]. *)
Definition steady_cutover_state : cutover_state :=
  {| cs_rds_state :=
       bench_slots "A" (bench_slot "openemr_a" "pwA" "openemr")
                       (bench_slot "openemr_b" "pwB" "openemr");
     cs_active := "A"; cs_standby := "B";
     cs_active_slot := bench_slot "openemr_a" "pwA" "openemr";
     cs_standby_slot := bench_slot "openemr_b" "pwB" "openemr";
     cs_original_sqlconf_content := bench_sqlconf "openemr_a" "pwA";
     cs_updated_sqlconf_content := bench_sqlconf "openemr_b" "pwB" |}.

(** The worlds of that run: on entering the guarded section, when the
    patch has failed, and after the rollback. *)
Definition world_at_cutover : World :=
  snd (rotate_to_cutover patch_fails_once (bench_ctx false) steady_world).
Definition world_at_failure : World :=
  snd (cutover patch_fails_once (bench_ctx false) steady_cutover_state
         world_at_cutover).
Definition world_rolled_back : World :=
  snd (_rollback patch_fails_once (bench_ctx false)
         (bench_sqlconf "openemr_a" "pwA")
         (bench_slot "openemr_a" "pwA" "openemr") world_at_failure).


(** The patch of the cluster mirror fails in the guarded section (call
    29) and again in the rollback (call 31). *)
Definition patch_keeps_failing : Env :=
  {| rand := fun i => i; fault := fun n => Nat.eqb n 29 || Nat.eqb n 31 |}.


(** ** Dry run *)

(** A statement that changes the database. *)
Definition is_db_write (ev : event) : bool :=
  match ev with
  | EvExecute Select1 => false
  | EvExecute _ => true
  | _ => false
  end.

(** C2.  A dry run in the steady state goes past the guards on
    [dry_run]: [rotate] calls [_upsert_openemr_db_user] on the standby
    slot before it tests the flag.  Here the account of slot B does not
    exist; the dry run reports success, and it has created the account
    and sent four statements. *)
Theorem dry_run_steady_state_writes_database :
  fst (rotate calm (bench_ctx true) sound_world) = inr tt
  /\ mysql_users sound_world !! "openemr_b" = None
  /\ mysql_users (snd (rotate calm (bench_ctx true) sound_world)) !! "openemr_b"
     = Some "pwB"
  /\ filter (fun ev => is_db_write ev = true)
       (added sound_world (snd (rotate calm (bench_ctx true) sound_world)))
     = [EvExecute FlushPrivileges;
        EvExecute (GrantAllPrivileges "openemr" (SStr "openemr_b"));
        EvExecute (AlterUserRequireSSL (SStr "openemr_b") (SStr "pwB"));
        EvExecute (CreateUserIfNotExists (SStr "openemr_b") (SStr "pwB"))].
Proof. vm_compute. repeat split. Qed.

(** * Further properties *)

(** ** The slot document *)



(** ** generate_password without characters *)

(** X2.  For a length of zero or less [generate_password] returns the
    empty text and does not consult the random source: [range] of such a
    length is empty, and no error is raised. *)
Theorem generate_password_nonpositive env (n : Z) (w : World) :
  n <= 0 -> generate_password env (Some n) w = (inr "", w).
Proof.
  intros Hn. unfold generate_password. simpl default.
  replace (Z.to_nat n) with 0%nat by lia. reflexivity.
Qed.

Lemma generate_password_nonpositive_witness :
  generate_password calm (Some (-3)) steady_world = (inr "", steady_world).
Proof. apply generate_password_nonpositive. lia. Defined.

(** ** _ensure_slot_initialized *)

Lemma setdefault_lookup key value (d : gmap string sval) key' :
  setdefault key value d !! key'
  = match d !! key' with
    | Some x => Some x
    | None => if decide (key' = key) then Some value else None
    end.
Proof.
  unfold setdefault. destruct (d !! key) as [x|] eqn:E.
  - destruct (d !! key') eqn:E'; [reflexivity|].
    destruct (decide (key' = key)) as [->|]; [congruence | reflexivity].
  - destruct (decide (key' = key)) as [->|Hne].
    + rewrite lookup_insert_eq, E. reflexivity.
    + rewrite lookup_insert_ne by congruence. destruct (d !! key'); reflexivity.
Qed.

(** X3.  [_ensure_slot_initialized] always returns a record with the
    five fields and always consumes the thirty draws of one generated
    password; a field the record already had keeps its value, and a
    field it lacked gets its default: the user name [openemr_slot], the
    generated password, the fallback host, the port 3306 as text, the
    fallback database name.  Nothing else is added. *)
Theorem ensure_slot_initialized_fills_only_gaps env slot fallback_host fallback_db w :
  exists slot',
    _ensure_slot_initialized env slot fallback_host fallback_db w
    = (inr slot', drawn 30 w)
    /\ complete slot'
    /\ (forall key v, slot !! key = Some v -> slot' !! key = Some v)
    /\ (forall key, slot !! key = None ->
          slot' !! key
          = if decide (key = "username") then Some (SStr "openemr_slot")
            else if decide (key = "password")
                 then Some (SStr (password_at env (draws w)))
            else if decide (key = "host") then Some fallback_host
            else if decide (key = "port") then Some (SStr "3306")
            else if decide (key = "dbname") then Some fallback_db
            else None).
Proof.
  unfold _ensure_slot_initialized.
  rewrite (bind_step _ _ _ _ _ (generate_password_at env w)).
  eexists. split; [reflexivity|].
  assert (L : forall key,
            setdefault "dbname" fallback_db
              (setdefault "port" (SStr "3306")
                 (setdefault "host" fallback_host
                    (setdefault "password" (SStr (password_at env (draws w)))
                       (setdefault "username" (SStr "openemr_slot") slot)))) !! key
            = match slot !! key with
              | Some x => Some x
              | None =>
                  if decide (key = "username") then Some (SStr "openemr_slot")
                  else if decide (key = "password")
                       then Some (SStr (password_at env (draws w)))
                  else if decide (key = "host") then Some fallback_host
                  else if decide (key = "port") then Some (SStr "3306")
                  else if decide (key = "dbname") then Some fallback_db
                  else None
              end).
  { intros key. rewrite !setdefault_lookup.
    destruct (slot !! key); [reflexivity|].
    repeat (destruct (decide _); [reflexivity|]). reflexivity. }
  split_and!.
  - unfold complete. rewrite !L.
    split_and!; (destruct (slot !! _); [eauto|]);
      repeat (destruct (decide _); [eauto|]); congruence.
  - intros key v H. rewrite L, H. reflexivity.
  - intros key H. rewrite L, H. reflexivity.
Qed.

Lemma ensure_slot_initialized_fills_only_gaps_witness :
  exists slot',
    _ensure_slot_initialized calm (<["username" := SStr "app"]> ∅)
      (SStr "db.example.com") (SStr "openemr") steady_world
    = (inr slot', drawn 30 steady_world)
    /\ slot' !! "username" = Some (SStr "app")
    /\ slot' !! "port" = Some (SStr "3306").
Proof.
  destruct (ensure_slot_initialized_fills_only_gaps calm
              (<["username" := SStr "app"]> ∅) (SStr "db.example.com")
              (SStr "openemr") steady_world) as (slot' & H & _ & Hkeep & Hfill).
  exists slot'. split_and!.
  - exact H.
  - apply Hkeep. reflexivity.
  - apply (Hfill "port"). reflexivity.
Defined.

(** ** validate_openemr_health *)

(** X4.  [validate_openemr_health] never raises: without a URL, or with
    an empty one, it does nothing at all; with a URL, whatever the probe
    meets, the call returns and only the count of calls has moved. *)
Theorem validate_openemr_health_never_fails env (health_url : option string) w :
  exists w',
    validate_openemr_health env health_url w = (inr tt, w')
    /\ secret_store w' = secret_store w /\ sqlconf_php w' = sqlconf_php w
    /\ k8s_secret_data w' = k8s_secret_data w /\ mysql_users w' = mysql_users w
    /\ draws w' = draws w /\ trace w' = trace w
    /\ (health_url = None \/ health_url = Some "" -> w' = w).
Proof.
  unfold validate_openemr_health. destruct health_url as [url|].
  - destruct (decide (url = "")) as [->|Hne].
    + exists w. split_and!; auto.
    + unfold try_except, bind, external.
      destruct (fault env (calls w)); eexists; (split; [reflexivity|]);
        simpl; split_and!; auto; intros [|]; congruence.
  - exists w. split_and!; auto.
Qed.

Lemma validate_openemr_health_never_fails_witness :
  exists w',
    validate_openemr_health calm (Some "") steady_world = (inr tt, w')
    /\ w' = steady_world.
Proof.
  destruct (validate_openemr_health_never_fails calm (Some "") steady_world)
    as (w' & H & _ & _ & _ & _ & _ & _ & Hsame).
  exists w'. split; [exact H|]. apply Hsame. right. reflexivity.
Defined.

(** ** The database accounts *)

(** The database accounts are as they were. *)
Definition same_users (w w' : World) : Prop := mysql_users w' = mysql_users w.

#[global] Instance same_users_preorder : PreOrder same_users.
Proof. split; unfold same_users; [intros w | intros w1 w2 w3]; congruence. Qed.

Lemma external_users env err : keeps same_users (external env err).
Proof. unfold external. field_tac. Qed.
Lemma log_users ev : keeps same_users (log ev).
Proof. unfold log. field_tac. Qed.
Lemma set_secret_store_users f : keeps same_users (set_secret_store f).
Proof. unfold set_secret_store. field_tac. Qed.
Lemma set_sqlconf_php_users c : keeps same_users (set_sqlconf_php c).
Proof. unfold set_sqlconf_php. field_tac. Qed.
Lemma set_k8s_secret_data_users f : keeps same_users (set_k8s_secret_data f).
Proof. unfold set_k8s_secret_data. field_tac. Qed.
Lemma set_sqlconf_php_mirror c : keeps same_mirror (set_sqlconf_php c).
Proof. unfold set_sqlconf_php. field_tac. Qed.

#[export] Hint Resolve external_users log_users set_secret_store_users
  set_sqlconf_php_users set_k8s_secret_data_users set_sqlconf_php_mirror : keeps_db.

(** What a statement that ran has done to the accounts. *)
Definition statement_effect (stmt : sql) (users users' : gmap string string) : Prop :=
  match stmt with
  | CreateUserIfNotExists (SStr u) (SStr p) =>
      users' = match users !! u with
               | Some _ => users
               | None => <[u := p]> users
               end
  | AlterUserRequireSSL (SStr u) (SStr p) | AlterUser (SStr u) (SStr p) =>
      is_Some (users !! u) /\ users' = <[u := p]> users
  | GrantAllPrivileges _ (SStr u) => is_Some (users !! u) /\ users' = users
  | FlushPrivileges | Select1 => users' = users
  | _ => False
  end.

Lemma execute_effect env stmt w w' :
  execute env stmt w = (inr tt, w') ->
  statement_effect stmt (mysql_users w) (mysql_users w').
Proof.
  unfold execute, bind, external, read, log, set_mysql_users, ret, raise,
    statement_effect.
  destruct (fault env (calls w)); [discriminate|]. simpl.
  destruct stmt as [[u|] [p|]|[u|] [p|]|[u|] [p|]|db [u|]| |]; simpl;
    try discriminate;
    try (destruct (mysql_users w !! u) eqn:E; simpl; try discriminate);
    intros [= <-]; simpl; rewrite ?E; eauto.
Qed.

Section Accounts.
Context (env : Env) (ctx : RotationContext).

Lemma get_secret_users id : keeps same_users (get_secret env id).
Proof. keeps_unfold get_secret. Qed.
Lemma put_payload_users id p : keeps same_users (put_payload env id p).
Proof. keeps_unfold put_payload. Qed.
Lemma pymysql_connect_users u p : keeps same_users (pymysql_connect env u p).
Proof. keeps_unfold pymysql_connect. Qed.

Hint Resolve get_secret_users put_payload_users pymysql_connect_users : keeps_db.

Lemma connection_opens_users u p : keeps same_users (connection_opens env u p).
Proof. keeps_unfold connection_opens. Qed.

Hint Resolve connection_opens_users : keeps_db.

Lemma _load_admin_secret_users : keeps same_users (_load_admin_secret env ctx).
Proof. unfold _load_admin_secret, _load_admin_secret_try. keeps_tac. Qed.

Lemma pymysql_connect_opened u p w w' :
  pymysql_connect env u p w = (inr tt, w') ->
  exists user password,
    u = SStr user /\ p = SStr password /\ mysql_users w !! user = Some password.
Proof.
  unfold pymysql_connect, bind, external, read, log, ret, raise.
  destruct (fault env (calls w)); [discriminate|]. simpl.
  destruct u as [user|]; simpl; [|discriminate].
  destruct p as [password|]; simpl; [|discriminate].
  destruct (bool_decide (mysql_users w !! user = Some password)) eqn:E;
    simpl; [|discriminate].
  apply bool_decide_eq_true in E. eauto.
Qed.

(** X5.  [validate_rds_connection] changes neither the accounts, the
    secrets, the file nor the mirror, whatever it returns; and it returns
    normally only when the record has a host, a database name and text
    for user name and password, and the database holds that account
    with that password. *)
Theorem validate_rds_connection_sound slot w r w' :
  validate_rds_connection env slot w = (r, w') ->
  mysql_users w' = mysql_users w /\ secret_store w' = secret_store w
  /\ sqlconf_php w' = sqlconf_php w /\ k8s_secret_data w' = k8s_secret_data w
  /\ (r = inr tt ->
      exists user password,
        slot !! "username" = Some (SStr user)
        /\ slot !! "password" = Some (SStr password)
        /\ is_Some (slot !! "host") /\ is_Some (slot !! "dbname")
        /\ mysql_users w !! user = Some password).
Proof.
  intros H. split_and!.
  - assert (K : keeps same_users (validate_rds_connection env slot)).
    { unfold validate_rds_connection. keeps_tac.
      intros w0 r0 w0' H0. destruct r0 as [e|[]].
      - unfold execute, bind, external, read, log, ret in H0.
        destruct (fault env (calls w0)); injection H0 as _ <-; reflexivity.
      - apply execute_effect in H0. exact H0. }
    exact (K _ _ _ H).
  - apply (su_store w w'). eapply validate_rds_connection_store; eauto.
  - apply (cu_file w w'). eapply validate_rds_connection_cluster; eauto.
  - apply (cu_k8s w w'). eapply validate_rds_connection_cluster; eauto.
  - intros ->. unfold validate_rds_connection in H.
    apply bind_lift_inv in H as (h & Hh & H).
    apply bind_lift_inv in H as (u & Hu & H).
    apply bind_lift_inv in H as (p & Hp & H).
    apply bind_lift_inv in H as (d & Hd & H).
    apply bind_lift_inv in H as (port & _ & H).
    apply bind_ok in H as ([] & w1 & Hc & _).
    apply pymysql_connect_opened in Hc as (user & password & -> & -> & Hacc).
    unfold getitem in *.
    destruct (slot !! "host"); [|discriminate].
    destruct (slot !! "username"); [|discriminate].
    destruct (slot !! "password"); [|discriminate].
    destruct (slot !! "dbname"); [|discriminate].
    exists user, password. split_and!; eauto; congruence.
Qed.

End Accounts.

Lemma validate_rds_connection_sound_witness :
  mysql_users (snd (validate_rds_connection calm
                      (bench_slot "openemr_a" "pwA" "openemr") steady_world))
  = mysql_users steady_world.
Proof.
  apply (validate_rds_connection_sound calm
           (bench_slot "openemr_a" "pwA" "openemr") steady_world
           (fst (validate_rds_connection calm
                   (bench_slot "openemr_a" "pwA" "openemr") steady_world))).
  apply surjective_pairing.
Defined.

#[export] Hint Resolve get_secret_users put_payload_users pymysql_connect_users
  connection_opens_users _load_admin_secret_users : keeps_db.

(** ** _upsert_openemr_db_user when it completes *)

Section Upsert.
Context (env : Env) (ctx : RotationContext).

Lemma pymysql_connect_logged u p w w' :
  pymysql_connect env u p w = (inr tt, w') ->
  exists user, u = SStr user /\ trace w' = EvConnect user true :: trace w.
Proof.
  unfold pymysql_connect, bind, external, read, log, ret, raise.
  destruct (fault env (calls w)); [discriminate|]. simpl.
  destruct u as [user|]; simpl; [|discriminate].
  destruct p as [password|]; simpl; [|discriminate].
  destruct (bool_decide (mysql_users w !! user = Some password)) eqn:E;
    simpl; [|discriminate].
  intros [= <-]. eauto.
Qed.

Lemma _upsert_openemr_db_user_done slot w w' :
  _upsert_openemr_db_user env ctx slot w = (inr tt, w') ->
  exists user password db_name admin_user earlier,
    slot !! "username" = Some (SStr user)
    /\ slot !! "password" = Some (SStr password)
    /\ slot !! "dbname" = Some (SStr db_name)
    /\ dbname_supported db_name = true
    /\ mysql_users w' = <[user := password]> (mysql_users w)
    /\ trace w'
       = EvExecute FlushPrivileges
         :: EvExecute (GrantAllPrivileges db_name (SStr user))
         :: EvExecute (AlterUserRequireSSL (SStr user) (SStr password))
         :: EvExecute (CreateUserIfNotExists (SStr user) (SStr password))
         :: EvConnect admin_user true :: earlier ++ trace w.
Proof.
  intros H. unfold _upsert_openemr_db_user in H.
  apply bind_ok in H as (admin & w1 & E1 & H).
  assert (U1 : same_users w w1) by (eapply _load_admin_secret_users; eauto).
  destruct (_load_admin_secret_grows env ctx _ _ _ E1) as (earlier & T1 & _).
  apply bind_lift_inv in H as (h & _ & H).
  apply bind_ok in H as (ah & w2 & E2 & H).
  assert (w2 = w1) as ->.
  { destruct (truthy h); [injection E2 as _ <- | unfold lift in E2;
      injection E2 as _ <-]; reflexivity. }
  apply bind_lift_inv in H as (port_v & _ & H).
  apply bind_lift_inv in H as (port & _ & H).
  apply bind_lift_inv in H as (au & _ & H).
  apply bind_lift_inv in H as (ap & _ & H).
  apply bind_lift_inv in H as (dv & Hdv & H).
  apply bind_ok in H as (db & w2 & E3 & H).
  destruct dv as [db'|]; [|discriminate]. injection E3 as <- <-.
  destruct (dbname_supported db') eqn:Hdb; simpl in H; [|discriminate].
  apply bind_ok in H as ([] & w3 & E4 & H).
  assert (U3 : same_users w1 w3) by (eapply pymysql_connect_users; eauto).
  apply pymysql_connect_logged in E4 as (admin_user & _ & T3).
  apply bind_lift_inv in H as (u & Hu & H).
  apply bind_lift_inv in H as (p & Hp & H).
  apply bind_ok in H as ([] & w4 & E5 & H).
  apply bind_ok in H as ([] & w5 & E6 & H).
  apply bind_ok in H as ([] & w6 & E7 & H).
  pose proof (execute_logged _ _ _ _ E5) as T4.
  pose proof (execute_logged _ _ _ _ E6) as T5.
  pose proof (execute_logged _ _ _ _ E7) as T6.
  pose proof (execute_logged _ _ _ _ H) as T7.
  apply execute_effect in E5, E6, E7, H. simpl in H.
  destruct u as [user|]; [|destruct E5]. destruct p as [password|]; [|destruct E5].
  simpl in E5, E6, E7. destruct E6 as [_ E6]. destruct E7 as [_ E7].
  unfold getitem in Hdv, Hu, Hp.
  destruct (slot !! "dbname"); [|discriminate].
  destruct (slot !! "username"); [|discriminate].
  destruct (slot !! "password"); [|discriminate].
  exists user, password, db', admin_user, earlier. split_and!; try congruence.
  unfold same_users in *. rewrite H, E7, E6, E5, U3, U1.
  destruct (mysql_users w !! user); [reflexivity|]. apply insert_insert_eq.
Qed.


End Upsert.



(** ** update_k8s_db_secret *)

(** The keys of the cluster Secret that [update_k8s_db_secret] patches. *)
Definition mirror_keys : list string :=
  ["mysql-host"; "mysql-user"; "mysql-password"; "mysql-database"].

Lemma mirror_data_lookup host user password database key :
  mirror_data host user password database !! key
  = if decide (key = "mysql-host") then Some host
    else if decide (key = "mysql-user") then Some user
    else if decide (key = "mysql-password") then Some password
    else if decide (key = "mysql-database") then Some database
    else None.
Proof.
  unfold mirror_data.
  repeat (destruct (decide _) as [->|];
          [rewrite ?lookup_insert_eq; repeat (rewrite lookup_insert_ne by discriminate);
           rewrite ?lookup_insert_eq; reflexivity|]).
  repeat (rewrite lookup_insert_ne by congruence). apply lookup_empty.
Qed.



(** ** What a dry run leaves alone *)

(** Whenever [m] returns, what it returns satisfies [Q]. *)
Definition returns {A} (Q : A -> Prop) (m : M A) : Prop :=
  forall w a w', m w = (inr a, w') -> Q a.

Lemma returns_ret {A} (Q : A -> Prop) a : Q a -> returns Q (ret a).
Proof. intros H w a' w' [= <- _]. exact H. Qed.

Lemma returns_bind {A B} (Q : B -> Prop) (m : M A) (k : A -> M B) :
  (forall a, returns Q (k a)) -> returns Q (bind m k).
Proof.
  intros Hk w b w' H. apply bind_ok in H as (a & w1 & _ & H). eapply Hk; eauto.
Qed.

Lemma keeps_bind_returns {A B} (P : World -> World -> Prop) `{!PreOrder P}
    (Q : A -> Prop) (m : M A) (k : A -> M B) :
  keeps P m -> returns Q m -> (forall a, Q a -> keeps P (k a)) -> keeps P (bind m k).
Proof.
  intros Hm HQ Hk w r w' H. unfold bind in H.
  destruct (m w) as [[e|a] w1] eqn:E.
  - injection H as _ <-. eapply Hm; eauto.
  - transitivity w1; [eapply Hm; eauto|]. eapply Hk; eauto.
Qed.

Section DryRun.
Context (env : Env) (ctx : RotationContext).

(** Up to its [try], [rotate] leaves the file and the cluster alone,
    dry run or not. *)
Lemma rotate_to_cutover_cluster : keeps cluster_untouched (rotate_to_cutover env ctx).
Proof.
  unfold rotate_to_cutover, rotate_branches, rotate_tail, discover_runtime_paths.
  keeps_tac.
Qed.

Hypothesis Hdry : dry_run ctx = true.

Lemma rotate_tail_dry rds_state active standby active_slot standby_slot matches :
  returns (fun reached => reached = None)
    (rotate_tail env ctx rds_state active standby active_slot standby_slot matches).
Proof.
  unfold rotate_tail. rewrite Hdry.
  destruct (matches && bool_decide (active = "B"));
    repeat (apply returns_bind; intros ?); apply returns_ret; reflexivity.
Qed.

Lemma rotate_to_cutover_dry :
  returns (fun reached => reached = None) (rotate_to_cutover env ctx).
Proof.
  unfold rotate_to_cutover. repeat (apply returns_bind; intros ?).
  unfold rotate_branches.
  repeat match goal with
         | |- returns _ (if ?b then _ else _) => destruct b
         end;
    repeat (apply returns_bind; intros ?);
    first [ apply rotate_tail_dry | apply returns_ret; reflexivity ].
Qed.

Lemma _rotate_old_slot_dry_store a b :
  keeps (store_but (rds_admin_secret_id ctx)) (_rotate_old_slot env ctx a b).
Proof.
  unfold _rotate_old_slot. rewrite Hdry. simpl. keeps_tac.
Qed.

Hint Resolve _rotate_old_slot_dry_store : keeps_db.

Lemma rotate_to_cutover_dry_store :
  keeps (store_but (rds_admin_secret_id ctx)) (rotate_to_cutover env ctx).
Proof.
  unfold rotate_to_cutover, rotate_branches, rotate_tail, discover_runtime_paths,
    _bootstrap_slots_from_sqlconf, _reconcile_active_slot_to_standby,
    _ensure_slot_initialized.
  rewrite Hdry. simpl negb. cbv iota. keeps_tac.
Qed.

(** X9.  A dry run of [rotate], however it ends, leaves the
    configuration file and the cluster mirror as they were, writes no
    file, sends no patch and triggers no restart, and leaves every
    secret other than the admin secret (so the slot document, when it is
    a secret of its own) as it was; when it returns it has not reached
    the guarded cutover. *)
Theorem dry_run_leaves_cluster_and_slot_document w r w' :
  rotate env ctx w = (r, w') ->
  cluster_untouched w w' /\ store_but (rds_admin_secret_id ctx) w w'.
Proof.
  intros H. split.
  - revert w r w' H.
    change (keeps cluster_untouched (rotate env ctx)). unfold rotate.
    eapply keeps_bind_returns;
      [typeclasses eauto | apply rotate_to_cutover_cluster
       | apply rotate_to_cutover_dry |].
    intros a ->. apply keeps_ret. typeclasses eauto.
  - revert w r w' H.
    change (keeps (store_but (rds_admin_secret_id ctx)) (rotate env ctx)).
    unfold rotate.
    eapply keeps_bind_returns;
      [typeclasses eauto | apply rotate_to_cutover_dry_store
       | apply rotate_to_cutover_dry |].
    intros a ->. apply keeps_ret. typeclasses eauto.
Qed.
End DryRun.

Lemma dry_run_leaves_cluster_and_slot_document_witness :
  sqlconf_php (snd (rotate calm (bench_ctx true) steady_world))
  = sqlconf_php steady_world
  /\ secret_store (snd (rotate calm (bench_ctx true) steady_world)) !! "rds"
     = secret_store steady_world !! "rds".
Proof.
  destruct (dry_run_leaves_cluster_and_slot_document calm (bench_ctx true) eq_refl
              steady_world (fst (rotate calm (bench_ctx true) steady_world))
              (snd (rotate calm (bench_ctx true) steady_world))
              (surjective_pairing _)) as [Hc Hs].
  split.
  - apply Hc.
  - apply Hs. discriminate.
Defined.

(** ** The cycle when the active slot is B *)

Section ActiveB.
Context (env : Env) (ctx : RotationContext).
Hypothesis Hwet : dry_run ctx = false.
Hypothesis Hids : rds_slots_secret_id ctx <> rds_admin_secret_id ctx.

(** X10.  When the slot document says B and the configuration equals
    slot B, a cycle that is not a dry run and completes does not cut
    over: the configuration file and the cluster mirror are as before,
    nothing is written, patched or restarted, [active_slot] is still B
    and slot B, the credentials in use, is as it was; only slot A gets
    the password the generator gave on its third call of the cycle. *)
Theorem active_B_only_ages_slot_A w w' doc slot_a slot_b content :
  secret_store w !! rds_slots_secret_id ctx = Some doc ->
  doc !! "active_slot" = Some (JVal (SStr "B")) ->
  doc !! "A" = Some (JDict slot_a) ->
  doc !! "B" = Some (JDict slot_b) ->
  complete slot_a -> complete slot_b ->
  sqlconf_php w = Some content ->
  _slot_matches_sqlconf slot_b (parse_sqlconf content) = true ->
  rotate env ctx w = (inr tt, w') ->
  (exists doc',
     secret_store w' !! rds_slots_secret_id ctx = Some doc'
     /\ doc' !! "active_slot" = Some (JVal (SStr "B"))
     /\ doc' !! "A"
        = Some (JDict (<["password" := SStr (password_at env (60 + draws w))]> slot_a))
     /\ doc' !! "B" = Some (JDict slot_b))
  /\ sqlconf_php w' = sqlconf_php w
  /\ k8s_secret_data w' = k8s_secret_data w
  /\ forallb (fun ev => negb (cluster_event ev)) (added w w') = true.
Proof.
  intros Hdoc Hact HA HB Hca Hcb Hfile Hmb H.
  unfold rotate in H. apply bind_ok in H as (reached & w1 & Hreach & H).
  destruct (rotate_to_cutover_prelude env ctx w reached w1 doc "B" "A"
              slot_b slot_a content)
    as (w5 & Hcl5 & Hst5 & Hdr5 & Hbr); auto.
  { split; auto. }
  unfold rotate_branches in Hbr. rewrite Hmb in Hbr. simpl in Hbr.
  rewrite andb_false_r in Hbr.
  unfold rotate_tail in Hbr. simpl in Hbr. rewrite Hwet in Hbr. simpl in Hbr.
  apply bind_ok in Hbr as (? & w7 & Hold & Hbr).
  apply bind_ok in Hbr as (? & w8 & Hadm & Hbr).
  injection Hbr as <- <-. injection H as <-.
  units.
  destruct (_rotate_old_slot_done env ctx Hwet _ _ _ _ Hold)
    as (rds & nas & old & wg & Hrds & Hnas & Hod & _ & _ & Hst7 & Hcl7).
  rewrite Hst5, Hdoc in Hrds by assumption. injection Hrds as <-.
  assert (nas = slot_b) as -> by congruence.
  assert (old = slot_a) as -> by congruence.
  assert (Hcl8 : cluster_untouched w7 w8)
    by (eapply _rotate_admin_password_cluster; eauto).
  assert (Hst8 : store_but (rds_admin_secret_id ctx) w7 w8)
    by (eapply _rotate_admin_password_store_but; eauto).
  assert (Hcl : cluster_untouched w w8).
  { transitivity w5; [assumption|]. transitivity w7; assumption. }
  split_and!.
  - eexists. split; [rewrite Hst8 by assumption; exact Hst7|].
    rewrite Hdr5. split_and!.
    + apply lookup_insert_eq.
    + rewrite lookup_insert_ne by discriminate.
      rewrite lookup_insert_ne by discriminate. apply lookup_insert_eq.
    + rewrite lookup_insert_ne by discriminate. apply lookup_insert_eq.
  - apply Hcl.
  - apply Hcl.
  - apply cluster_untouched_added. assumption.
Qed.
End ActiveB.

(** The steady state after a cutover: the document says B and the
    configuration points at slot B. *)
Definition steady_world_B : World :=
  bench_world
    (bench_slots "B" (bench_slot "openemr_a" "pwA" "openemr")
                     (bench_slot "openemr_b" "pwB" "openemr"))
    (bench_admin "adminpw") (bench_sqlconf "openemr_b" "pwB")
    (<["root" := "adminpw"]> (<["openemr_a" := "pwA"]>
     (<["openemr_b" := "pwB"]> ∅))).

Lemma active_B_only_ages_slot_A_witness :
  stored_active (snd (rotate calm (bench_ctx false) steady_world_B)) "rds"
  = Some (JVal (SStr "B"))
  /\ stored_field (snd (rotate calm (bench_ctx false) steady_world_B))
       "rds" "B" "password"
     = Some (SStr "pwB")
  /\ stored_field (snd (rotate calm (bench_ctx false) steady_world_B))
       "rds" "A" "password"
     = Some (SStr (password_at calm 60))
  /\ sqlconf_php (snd (rotate calm (bench_ctx false) steady_world_B))
     = sqlconf_php steady_world_B.
Proof.
  destruct (active_B_only_ages_slot_A calm (bench_ctx false) eq_refl
              ltac:(discriminate) steady_world_B
              (snd (rotate calm (bench_ctx false) steady_world_B))
              (bench_slots "B" (bench_slot "openemr_a" "pwA" "openemr")
                               (bench_slot "openemr_b" "pwB" "openemr"))
              (bench_slot "openemr_a" "pwA" "openemr")
              (bench_slot "openemr_b" "pwB" "openemr")
              (bench_sqlconf "openemr_b" "pwB"))
    as ((doc' & Hst & Hact & HA & HB) & Hfile & _);
    try (vm_compute; reflexivity).
  - repeat split; eexists; vm_compute; reflexivity.
  - repeat split; eexists; vm_compute; reflexivity.
  - change (rds_slots_secret_id (bench_ctx false)) with "rds" in Hst.
    unfold stored_active, stored_field. rewrite Hst, Hact, HA, HB.
    split_and!; [reflexivity | reflexivity | apply lookup_insert_eq | exact Hfile].
Defined.

(** ** The cutover when it succeeds *)

Lemma restarts_cluster evs :
  forallb (fun ev => negb (cluster_event ev)) evs = true -> restarts evs = 0%nat.
Proof.
  intros H. apply restarts_none. rewrite forallb_forall in H |- *.
  intros ev Hin. specialize (H ev Hin). destruct ev; simpl in *; congruence.
Qed.

Lemma cluster_untouched_restarts w w' :
  cluster_untouched w w' -> restarts (added w w') = 0%nat.
Proof. intros H. apply restarts_cluster, cluster_untouched_added, H. Qed.

Lemma added_trans w1 w2 w3 :
  (exists evs, trace w2 = evs ++ trace w1) ->
  (exists evs, trace w3 = evs ++ trace w2) ->
  added w1 w3 = added w2 w3 ++ added w1 w2.
Proof.
  intros (e1 & T1) (e2 & T2).
  rewrite (added_app w1 w2 e1 T1), (added_app w2 w3 e2 T2).
  apply added_app. rewrite T2, T1, app_assoc. reflexivity.
Qed.

Lemma cluster_untouched_extends w w' :
  cluster_untouched w w' -> exists evs, trace w' = evs ++ trace w.
Proof. intros [_ _ (evs & H & _)]. eauto. Qed.

Section Cutover.
Context (env : Env) (ctx : RotationContext).

Lemma put_payload_extends id p : keeps no_restart (put_payload env id p).
Proof. keeps_unfold put_payload. Qed.

(** What a completed cutover leaves: the file holds the rendered
    content, the mirror the fields of the standby slot, one restart was
    triggered, and the slot document says the standby label. *)
Lemma cutover_done st w w' :
  cutover env ctx st w = (inr tt, w') ->
  sqlconf_php w' = Some (cs_updated_sqlconf_content st)
  /\ (exists host user password database,
        cs_standby_slot st !! "host" = Some (SStr host)
        /\ cs_standby_slot st !! "username" = Some (SStr user)
        /\ cs_standby_slot st !! "password" = Some (SStr password)
        /\ cs_standby_slot st !! "dbname" = Some (SStr database)
        /\ k8s_secret_data w'
           = mirror_data host user password database ∪ k8s_secret_data w)
  /\ (exists evs, trace w' = evs ++ trace w)
  /\ restarts (added w w') = 1%nat
  /\ secret_store w'
     = <[rds_slots_secret_id ctx
         := <["active_slot" := JVal (SStr (cs_standby st))]> (cs_rds_state st)]>
         (secret_store w)
  /\ draws w' = draws w.
Proof.
  intros H. unfold cutover in H.
  apply bind_ok in H as ([] & w1 & E1 & H).
  apply bind_ok in H as ([] & w2 & E2 & H).
  apply bind_ok in H as ([] & w3 & E3 & H).
  apply bind_ok in H as ([] & w4 & E4 & H).
  assert (F2 : same_file w1 w2) by (eapply update_k8s_db_secret_file; eauto).
  assert (F3 : same_file w2 w3) by (eapply rollout_restart_deployment_file; eauto).
  assert (F4 : same_file w3 w4) by (eapply _validate_runtime_file; eauto).
  assert (F5 : same_file w4 w').
  { revert H. generalize w4, (@inr exn unit tt), w'.
    change (keeps same_file (put_payload env (rds_slots_secret_id ctx)
              (<["active_slot" := JVal (SStr (cs_standby st))]> (cs_rds_state st)))).
    keeps_unfold put_payload. }
  assert (K3 : same_mirror w2 w3) by (eapply rollout_restart_deployment_mirror; eauto).
  assert (K4 : same_mirror w3 w4) by (eapply _validate_runtime_mirror; eauto).
  assert (K5 : same_mirror w4 w').
  { revert H. generalize w4, (@inr exn unit tt), w'.
    change (keeps same_mirror (put_payload env (rds_slots_secret_id ctx)
              (<["active_slot" := JVal (SStr (cs_standby st))]> (cs_rds_state st)))).
    keeps_unfold put_payload. }
  assert (K1 : k8s_secret_data w1 = k8s_secret_data w).
  { unfold atomic_write, bind, external, set_sqlconf_php, log in E1.
    destruct (fault env (calls w)); [discriminate|]. injection E1 as <-. reflexivity. }
  assert (S1 : store_untouched w w1) by (eapply atomic_write_store; eauto).
  assert (S2 : store_untouched w1 w2) by (eapply update_k8s_db_secret_store; eauto).
  assert (S3 : store_untouched w2 w3)
    by (eapply rollout_restart_deployment_store; eauto).
  assert (S4 : store_untouched w3 w4) by (eapply _validate_runtime_store; eauto).
  assert (D : draws w' = draws w).
  { assert (Dk : keeps same_draws (cutover env ctx st)).
    { unfold cutover, atomic_write, update_k8s_db_secret,
        rollout_restart_deployment, _wait_for_rollout, _validate_runtime.
      keeps_tac. }
    apply (Dk w (inr tt) w'). unfold cutover.
    erewrite bind_step by eassumption. erewrite bind_step by eassumption.
    erewrite bind_step by eassumption. erewrite bind_step by eassumption.
    exact H. }
  destruct (atomic_write_no_restart _ _ _ _ _ E1) as (e1 & T1 & A1).
  destruct (update_k8s_db_secret_no_restart _ _ _ _ _ E2) as (e2 & T2 & A2).
  destruct (rollout_restart_deployment_done _ _ _ _ E3) as (e3 & T3 & A3).
  destruct (_validate_runtime_no_restart _ _ _ _ _ _ E4) as (e4 & T4 & A4).
  destruct (put_payload_extends _ _ _ _ _ H) as (e5 & T5 & A5).
  apply atomic_write_done in E1.
  apply update_k8s_db_secret_done in E2 as (h & u & p & d & Hh & Hu & Hp & Hd & Hk).
  apply put_payload_stored in H as [Hst _].
  unfold same_file, same_mirror in *.
  assert (T : trace w' = (e5 ++ e4 ++ e3 ++ e2 ++ e1) ++ trace w).
  { rewrite T5, T4, T3, T2, T1, <- !app_assoc. reflexivity. }
  split_and!.
  - congruence.
  - exists h, u, p, d. split_and!; auto. rewrite K5, K4, K3, Hk, K1. reflexivity.
  - eauto.
  - rewrite (added_app w w' _ T).
    rewrite !restarts_app, A3, (restarts_none _ A1), (restarts_none _ A2),
      (restarts_none _ A4), (restarts_none _ A5). reflexivity.
  - rewrite Hst, (su_store _ _ S4), (su_store _ _ S3), (su_store _ _ S2),
      (su_store _ _ S1). reflexivity.
  - exact D.
Qed.

Hypothesis Hwet : dry_run ctx = false.
Hypothesis Hids : rds_slots_secret_id ctx <> rds_admin_secret_id ctx.

(** In the steady state a cycle that is not a dry run and gets through
    its preparations enters the guarded section, with the stored
    document and records and the rendered content. *)
Lemma steady_state_cutover_state w doc slot_a slot_b content reached w1 :
  secret_store w !! rds_slots_secret_id ctx = Some doc ->
  doc !! "active_slot" = Some (JVal (SStr "A")) ->
  doc !! "A" = Some (JDict slot_a) ->
  doc !! "B" = Some (JDict slot_b) ->
  complete slot_a -> complete slot_b ->
  sqlconf_php w = Some content ->
  _slot_matches_sqlconf slot_a (parse_sqlconf content) = true ->
  rotate_to_cutover env ctx w = (inr reached, w1) ->
  exists updated,
    render_sqlconf content slot_b = inr updated
    /\ reached = Some {| cs_rds_state := doc; cs_active := "A"; cs_standby := "B";
                         cs_active_slot := slot_a; cs_standby_slot := slot_b;
                         cs_original_sqlconf_content := content;
                         cs_updated_sqlconf_content := updated |}
    /\ cluster_untouched w w1
    /\ store_but (rds_admin_secret_id ctx) w w1
    /\ draws w1 = (60 + draws w)%nat.
Proof.
  intros Hdoc Hact HA HB Hca Hcb Hfile Hma H.
  destruct (rotate_to_cutover_prelude env ctx w reached w1 doc "A" "B"
              slot_a slot_b content)
    as (w5 & Hcl5 & Hst5 & Hdr5 & Hbr); auto.
  { split; auto. }
  unfold rotate_branches in Hbr. rewrite Hma in Hbr. simpl in Hbr.
  rewrite andb_false_r in Hbr.
  unfold rotate_tail in Hbr. simpl in Hbr.
  apply bind_ok in Hbr as ([] & w6 & E6 & Hbr).
  apply bind_ok in Hbr as ([] & w7 & E7 & Hbr).
  apply bind_ok in Hbr as (orig & w8 & E8 & Hbr).
  apply bind_lift_inv in Hbr as (upd & Hupd & Hbr).
  rewrite Hwet in Hbr. injection Hbr as <- <-.
  assert (C6 : cluster_untouched w5 w6)
    by (eapply _upsert_openemr_db_user_cluster; eauto).
  assert (C7 : cluster_untouched w6 w7)
    by (eapply validate_rds_connection_cluster; eauto).
  assert (C8 : cluster_untouched w7 w8) by (eapply read_text_cluster; eauto).
  assert (S6 : store_but (rds_admin_secret_id ctx) w5 w6)
    by (eapply _upsert_openemr_db_user_store_but; eauto).
  assert (S7 : store_but (rds_admin_secret_id ctx) w6 w7)
    by (eapply validate_rds_connection_store_but; eauto).
  assert (S8 : store_but (rds_admin_secret_id ctx) w7 w8)
    by (eapply read_text_store_but; eauto).
  assert (D6 : same_draws w5 w6) by (eapply _upsert_openemr_db_user_draws; eauto).
  assert (D7 : same_draws w6 w7) by (eapply validate_rds_connection_draws; eauto).
  assert (D8 : same_draws w7 w8) by (eapply read_text_draws; eauto).
  assert (C : cluster_untouched w w7).
  { transitivity w5; [assumption|]. transitivity w6; assumption. }
  apply read_text_ok in E8. rewrite (cu_file _ _ C), Hfile in E8.
  injection E8 as <-.
  exists upd. split_and!.
  - assumption.
  - reflexivity.
  - transitivity w7; assumption.
  - transitivity w5; [assumption|]. transitivity w6; [assumption|].
    transitivity w7; assumption.
  - unfold same_draws in *. lia.
Qed.

End Cutover.

